(** * safe_intersection: the reservation server (ltms/scripts/server.py)

    A shallow embedding of the session table and of the connect / notify /
    reserve handlers, the priority clock [latest_reserve_time], the conflict
    resolver [resolve_dangers] and the session sweep [clean_sessions_tmr].

    Conventions of the embedding.
    - A [datetime] is the number of microseconds since [datetime.min]
      and a [timedelta] a number of microseconds, both in [Z]: Python's
      datetime arithmetic is exact integer arithmetic at that resolution.
      Their ranges are checked where the offset of a request moves
      [time_ref] ([align_window]); elsewhere instants are assumed to stay
      inside the range.
    - A Python float is represented by a rational [Q], which stands for
      the double nearest to it, [fl]: 0.4 for the double of the literal
      [0.4].  Sums, differences and comparisons are taken on the
      rationals, without the rounding error of the float operation.
      Where the outcome of the code depends on the binary value, the
      model computes on that value: [round(x, 1)], the remainder
      [e % TIME_STEP] and [timedelta(seconds=x)] all start from [fl x].
      So [1.0 % 0.2] is just under 0.2, as in Python, not 0, and a window
      that starts at a whole second gets an offset of 0.2 more.  The
      entries of a request, which come off the wire, may also be NaN or
      an infinity ([pyfloat]).
    - The dictionary [self.sessions] is a [gmap string Session]; iterating
      [list(self.sessions.items())] is iterating [map_to_list].
    - Every [datetime.now()] a handler performs is an argument of its model.
    - The reachability solver ([ltms_util.Solver]) is outside the
      repository's sources; it is the interface [Solver] below. *)

From Stdlib Require Import ZArith QArith Qround Qabs Qpower Lqa Lia.
From stdpp Require Import gmap strings list fin_maps.

Local Open Scope Z_scope.

(** ** Time *)

Definition datetime := Z.
Definition timedelta := Z.

Definition MICRO : Z := 1000000.

(** [timedelta(seconds=n)] for a Python int [n]. *)
Definition seconds (n : Z) : timedelta := n * MICRO.

(** [td.total_seconds()]. *)
Definition total_seconds (d : timedelta) : Q := Qmake d 1000000.

(** [dt.replace(microsecond=0)]. *)
Definition replace_microsecond_0 (t : datetime) : datetime := t - t mod MICRO.

(** ** Floats *)

Definition Qltb (x y : Q) : bool := negb (Qle_bool y x).
Definition Qleb (x y : Q) : bool := Qle_bool x y.

(** Python's [max(a, b)] keeps [a] unless [b > a]; [min(a, b)] keeps [a]
    unless [b < a]. *)
Definition py_max (a b : Q) : Q := if Qltb a b then b else a.
Definition py_min (a b : Q) : Q := if Qltb b a then b else a.

(** [math.floor] and [math.ceil]. *)
Definition floor (x : Q) : Z := Qfloor x.
Definition ceil (x : Q) : Z := Qceiling x.

(** Nearest integer, ties to even. *)
Definition round_half_even (x : Q) : Z :=
  let f := Qfloor x in
  let r := (x - inject_Z f)%Q in
  if Qltb r (1 # 2) then f
  else if Qltb (1 # 2) r then f + 1
  else if Z.even f then f else f + 1.

(** [2^k], for negative [k] too. *)
Definition pow2 (k : Z) : Q := Qpower 2 k.

(** The binary exponent of a positive rational: [2^e <= x < 2^(e+1)]. *)
Definition exponent (x : Q) : Z :=
  let e := Z.log2 (Qnum x) - Z.log2 (Zpos (Qden x)) in
  if Qleb (pow2 e) x then e else e - 1.

(** The double nearest to [x], ties to even: 53 bits of mantissa, the
    exponents of binary64 downwards; overflow to an infinity is not
    modelled. *)
Definition fl (x : Q) : Q :=
  if Qeq_bool x 0 then 0%Q
  else
    let a := Qabs x in
    let ulp := pow2 (Z.max (exponent a) (-1022) - 52) in
    let m := (inject_Z (round_half_even (a / ulp)) * ulp)%Q in
    if Qltb x 0 then (- m)%Q else m.

(** The integer part, towards zero (C's [modf] and [fmod]). *)
Definition trunc (x : Q) : Z := if Qltb x 0 then Qceiling x else Qfloor x.

(** [round(x, 1)]: the decimal expansion of the double is rounded to
    one digit, ties to even; the tenth returned stands for the double
    nearest to it. *)
Definition round1 (x : Q) : Q := Qmake (round_half_even (fl x * 10)) 10.

(** [x % y] on floats: C's [fmod] of the two doubles, which is exact,
    moved by [y] where its sign differs from that of [y]. *)
Definition py_mod (x y : Q) : Q :=
  let vx := fl x in
  let wx := fl y in
  let r := (vx - inject_Z (trunc (vx / wx)) * wx)%Q in
  if Qeq_bool r 0 then 0%Q
  else if negb (Bool.eqb (Qltb wx 0) (Qltb r 0)) then fl (r + wx) else r.

(** [timedelta(seconds=x)] for a float [x]: the whole seconds, and the
    fraction times a million, in floats, rounded to the nearest
    microsecond, ties to even. *)
Definition timedelta_of_seconds (x : Q) : timedelta :=
  let dnum := fl x in
  let intpart := trunc dnum in
  let fracpart := (dnum - inject_Z intpart)%Q in
  round_half_even (inject_Z (intpart * 1000000) + fl (1000000 * fracpart)).

(** [timedelta.min] and [timedelta.max]: 999999999 days either way. *)
Definition TIMEDELTA_MIN : timedelta := - (999999999 * 86400 * 1000000).
Definition TIMEDELTA_MAX : timedelta := 1000000000 * 86400 * 1000000 - 1.

(** [datetime.max], 9999-12-31T23:59:59.999999, counted from
    [datetime.min]. *)
Definition DATETIME_MAX : datetime := 3652059 * 86400 * 1000000 - 1.

Definition timedelta_in_range (d : timedelta) : bool :=
  (TIMEDELTA_MIN <=? d) && (d <=? TIMEDELTA_MAX).

Definition datetime_in_range (t : datetime) : bool :=
  (0 <=? t) && (t <=? DATETIME_MAX).

(** A float as it arrives in a request. *)
Inductive pyfloat := finite (q : Q) | nan | inf (negative : bool).
Coercion finite : Q >-> pyfloat.
Bind Scope Q_scope with pyfloat.

(** [a < b]: false whenever one side is NaN. *)
Definition pf_ltb (a b : pyfloat) : bool :=
  match a, b with
  | nan, _ | _, nan => false
  | finite x, finite y => Qltb x y
  | inf true, inf true => false
  | inf true, _ => true
  | _, inf true => false
  | inf false, _ => false
  | _, inf false => true
  end.

Definition pf_max (a b : pyfloat) : pyfloat := if pf_ltb a b then b else a.
Definition pf_min (a b : pyfloat) : pyfloat := if pf_ltb b a then b else a.

(** [round(x, 1)]: NaN and the infinities round to themselves. *)
Definition pf_round1 (x : pyfloat) : pyfloat :=
  match x with finite q => finite (round1 q) | _ => x end.

(** [x - y] for a finite [y]. *)
Definition pf_sub (x : pyfloat) (y : Q) : pyfloat :=
  match x with finite q => finite (q - y) | _ => x end.

(** ** Python sequences: slices and slice assignment *)

Inductive Exc := ValueError | KeyError | OverflowError.

(** A slice bound [k] of a sequence of length [len]: negative bounds count
    from the end, and the result is clipped to [0, len]. *)
Definition norm_index (len k : Z) : Z :=
  if k <? 0 then Z.max 0 (k + len) else Z.min k len.

Definition slice_bounds (len : Z) (lo hi : option Z) : Z * Z :=
  let a := match lo with None => 0 | Some k => norm_index len k end in
  let b := match hi with None => len | Some k => norm_index len k end in
  (a, Z.max a b).

(** [l[lo:hi]]. *)
Definition py_slice {A} (lo hi : option Z) (l : list A) : list A :=
  let '(a, b) := slice_bounds (Z.of_nat (length l)) lo hi in
  take (Z.to_nat (b - a)) (drop (Z.to_nat a) l).

(** [dst[lo:hi] = src] on numpy arrays, along the first axis: the source
    must have as many rows as the destination slice, or exactly one row,
    which is then broadcast; anything else raises [ValueError]. *)
Definition assign_slice {A} (lo hi : option Z) (dst src : list A) : Exc + list A :=
  let '(a, b) := slice_bounds (Z.of_nat (length dst)) lo hi in
  let n := Z.to_nat (b - a) in
  if decide (length src = n) then
    inr (take (Z.to_nat a) dst ++ src ++ drop (Z.to_nat b) dst)
  else match src with
       | [x] => inr (take (Z.to_nat a) dst ++ replicate n x ++ drop (Z.to_nat b) dst)
       | _ => inl ValueError
       end.

(** The value an assignment leaves behind, kept for [dangers[sid] = ..]. *)
Definition keep {A} (r : Exc + A) : Exc + option A :=
  match r with inl e => inl e | inr x => inr (Some x) end.

(** ** Class constants of [Server] *)

Definition TIME_HORIZON : Z := 15.
Definition TIME_STEP : Q := 2 # 10.
Definition MAX_WINDOW_ENTRY : Z := 2.
Definition SESSION_TIMEOUT : timedelta := seconds 30.
Definition TRANSIT_TIME : Z := 15.
Definition COMPUTE_TIME : Z := 10.

Definition _LOCATIONS : list string := ["left"; "top"; "right"; "bottom"]%string.
Definition ENTRY_LOCATIONS : list string := _LOCATIONS ++ ["init"%string].
Definition EXIT_LOCATIONS : list string := _LOCATIONS.

(** The keys of [PERMITTED_ROUTES]. *)
Definition _PERMITTED_ROUTES : list (string * string) :=
  _entry ← _LOCATIONS;
  _exit ← filter (λ x, x ≠ _entry) _LOCATIONS;
  [(_entry, _exit)].
Definition PERMITTED_ROUTES : list (string * string) :=
  _PERMITTED_ROUTES ++ [("init", "left")%string].

(** ** Sessions and reservations *)

(** What [run_analysis] leaves in the [result] dictionary, as far as the
    server reads it. *)
Record Analysis (Frame : Type) := mkAnalysis {
  an_earliest_entry : Q;
  an_latest_entry : Q;
  an_earliest_exit : Q;
  an_latest_exit : Q;
  an_pass4 : list Frame
}.
Arguments mkAnalysis {Frame}.
Arguments an_earliest_entry {Frame}.
Arguments an_latest_entry {Frame}.
Arguments an_earliest_exit {Frame}.
Arguments an_latest_exit {Frame}.
Arguments an_pass4 {Frame}.

(** The external reachability solver: the shape of one time slice of a
    value function, the all-ones slice of [np.ones], the length of
    [solver.timeline], and [run_analysis] applied to the entry and exit
    regions, the dangers and [max_window_entry]. *)
Class Solver := {
  Frame : Type;
  ones : Frame;
  timeline_len : nat;
  run_analysis : string → string → list (list Frame) → Q → Analysis Frame
}.

Section Server.
Context `{solver : Solver}.

Definition Tube := list Frame.

(** The keyword dictionary handed to [add_reservation]. *)
Record Reservation := mkReservation {
  res_name : string;
  res_time_ref : datetime;
  res_entry : string;
  res_exit : string;
  res_earliest_entry : Q;
  res_latest_entry : Q;
  res_earliest_exit : Q;
  res_latest_exit : Q;
  res_analysis : Analysis Frame
}.

(** One value of [self.sessions]; [reservation = {}] is [None]. *)
Record Session := mkSession {
  sess_latest_reserve_time : datetime;
  sess_arrival_time : datetime;
  sess_session_timeout : datetime;
  sess_reserved : bool;
  sess_reservation : option Reservation
}.

Abbreviation Sessions := (gmap string Session).

Definition get_sessions (st : Sessions) : list (string * Session) :=
  map_to_list st.

Definition sessions_add (sid : string) (sess : Session) (st : Sessions) : Sessions :=
  <[sid := sess]> st.

Definition select_session (sid : string) (st : Sessions) : option Session :=
  st !! sid.

Definition get_reservations (st : Sessions) : list (string * option Reservation) :=
  omap (λ '(sid, sess),
          if sess_reserved sess then Some (sid, sess_reservation sess) else None)
       (get_sessions st).

(** [sess['reservation'] = r; sess['reserved'] = True]. *)
Definition with_reservation (sess : Session) (r : Reservation) : Session :=
  mkSession (sess_latest_reserve_time sess) (sess_arrival_time sess)
            (sess_session_timeout sess) true (Some r).

Definition add_reservation (sid : string) (r : Reservation) (st : Sessions) : Sessions :=
  match select_session sid st with
  | Some sess => <[sid := with_reservation sess r]> st
  | None => st
  end.

(** ** PriorityClock *)

(** The loop of [latest_reserve_time] over a snapshot of the sessions;
    [None] is the early [return datetime.now()]. *)
Fixpoint count_unreserved_hpv (ego_sid : string) (ego_arrival_time : datetime)
    (l : list (string * Session)) (num_unreserved_hpv : Z) : option Z :=
  match l with
  | [] => Some num_unreserved_hpv
  | (oth_sid, oth_sess) :: l' =>
      if String.eqb oth_sid ego_sid
      then count_unreserved_hpv ego_sid ego_arrival_time l' num_unreserved_hpv
      else
        let ego_before_other :=
          total_seconds (sess_arrival_time oth_sess - ego_arrival_time) in
        if sess_reserved oth_sess then
          if Qltb 0 ego_before_other then None
          else count_unreserved_hpv ego_sid ego_arrival_time l' num_unreserved_hpv
        else
          if Qltb 0 ego_before_other
          then count_unreserved_hpv ego_sid ego_arrival_time l' num_unreserved_hpv
          else if Qltb (inject_Z TIME_HORIZON) (- ego_before_other)
          then count_unreserved_hpv ego_sid ego_arrival_time l' num_unreserved_hpv
          else count_unreserved_hpv ego_sid ego_arrival_time l' (num_unreserved_hpv + 1)
  end.

(** [now] is the clock read by the early return. *)
Definition latest_reserve_time (now : datetime) (st : Sessions)
    (ego_sid : string) (ego_arrival_time : datetime) : datetime :=
  match count_unreserved_hpv ego_sid ego_arrival_time (get_sessions st) 0 with
  | None => now
  | Some num_unreserved_hpv =>
      let time_needed := COMPUTE_TIME * (num_unreserved_hpv + 1) in
      let time_needed := time_needed + COMPUTE_TIME in
      ego_arrival_time - seconds time_needed
  end.

(** ** connect and notify *)

Record ConnectReq := mkConnectReq {
  creq_usr_id : string;
  creq_arrival_time : datetime          (* already parsed by [fromisoformat] *)
}.

(** A response message starts with empty strings and zeros;
    the absent [latest_reserve_time] string is [None]. *)
Record ConnectResp := mkConnectResp {
  cresp_its_id : string;
  cresp_transit_time : Z;
  cresp_latest_reserve_time : option datetime
}.

(** [token] is the value of [secrets.token_hex(4)], [now0] the clock that
    [latest_reserve_time] may read and [now] the clock read after it. *)
Definition connect_srv (token : string) (now0 now : datetime)
    (req : ConnectReq) (st : Sessions) : ConnectResp * Sessions :=
  let usr_id := creq_usr_id req in
  let its_id := ("its_" ++ token)%string in
  let arrival_time := creq_arrival_time req in
  let session_timeout := arrival_time + SESSION_TIMEOUT in
  let latest_reserve_time := latest_reserve_time now0 st usr_id arrival_time in
  if latest_reserve_time <? now then
    (mkConnectResp "" (-1000) None, st)
  else
    (mkConnectResp its_id TRANSIT_TIME (Some latest_reserve_time),
     sessions_add usr_id
       (mkSession latest_reserve_time arrival_time session_timeout false None) st).

Record NotifyReq := mkNotifyReq {
  nreq_usr_id : string;
  nreq_arrival_time : datetime
}.

Record NotifyResp := mkNotifyResp {
  nresp_transit_time : Z;
  nresp_latest_reserve_time : option datetime
}.

Definition notify_srv (now0 now : datetime)
    (req : NotifyReq) (st : Sessions) : NotifyResp * Sessions :=
  let arrival_time := nreq_arrival_time req in
  let latest_reserve_time :=
    latest_reserve_time now0 st (nreq_usr_id req) arrival_time in
  if latest_reserve_time <? now then
    (mkNotifyResp (-1000) None, st)
  else
    match select_session (nreq_usr_id req) st with
    | Some sess =>
        if sess_reserved sess then
          (mkNotifyResp (-2000) None, st)
        else
          (mkNotifyResp TRANSIT_TIME (Some latest_reserve_time),
           <[nreq_usr_id req :=
               mkSession latest_reserve_time arrival_time
                         (arrival_time + SESSION_TIMEOUT)
                         (sess_reserved sess) (sess_reservation sess)]> st)
    | None =>
        (mkNotifyResp (-3000) None, st)
    end.

(** ** ConflictResolver *)

(** The overlap, in seconds, of the windows starting at [time_ref] and at
    the reservation's [time_ref], both [TIME_HORIZON] long. *)
Definition overlap (time_ref : datetime) (reservation : Reservation) : Q :=
  let td_horizon := seconds TIME_HORIZON in
  let earliest_overlap := Z.max time_ref (res_time_ref reservation) in
  let latest_overlap :=
    Z.min (time_ref + td_horizon) (res_time_ref reservation + td_horizon) in
  total_seconds (latest_overlap - earliest_overlap).

(** The body of the loop of [resolve_dangers] for one reservation:
    [inr None] is [continue], [inr (Some danger)] the array stored under
    the session id, [inl] an exception leaving the loop. *)
Definition danger_of (time_ref : datetime) (reservation : Reservation)
    : Exc + option Tube :=
  let td_horizon := seconds TIME_HORIZON in
  let earliest_overlap := Z.max time_ref (res_time_ref reservation) in
  let latest_overlap :=
    Z.min (time_ref + td_horizon) (res_time_ref reservation + td_horizon) in
  let overlap := total_seconds (latest_overlap - earliest_overlap) in
  if negb (Qltb 0 overlap) then inr None
  else
    let danger := replicate timeline_len ones in
    let pass4 := an_pass4 (res_analysis reservation) in
    if time_ref <? earliest_overlap then
      let i_offset := total_seconds (earliest_overlap - time_ref) in
      let j_offset := total_seconds (latest_overlap - res_time_ref reservation) in
      let i := ceil (i_offset / TIME_STEP) in
      let j := ceil (j_offset / TIME_STEP) in
      keep (assign_slice (Some i) None danger (py_slice None (Some j) pass4))
    else
      let i_offset := total_seconds (earliest_overlap - res_time_ref reservation) in
      let j_offset := total_seconds (latest_overlap - time_ref) in
      let i := ceil (i_offset / TIME_STEP) in
      let j := ceil (j_offset / TIME_STEP) in
      keep (assign_slice None (Some j) danger (py_slice (Some i) (Some (i + j)) pass4)).

Fixpoint resolve_loop (time_ref : datetime)
    (l : list (string * option Reservation)) (dangers : gmap string Tube)
    : Exc + gmap string Tube :=
  match l with
  | [] => inr dangers
  | (sid, None) :: _ => inl KeyError           (* [reservation['time_ref']] of [{}] *)
  | (sid, Some reservation) :: l' =>
      match danger_of time_ref reservation with
      | inl e => inl e
      | inr None => resolve_loop time_ref l' dangers
      | inr (Some danger) => resolve_loop time_ref l' (<[sid := danger]> dangers)
      end
  end.

Definition resolve_dangers (time_ref : datetime) (st : Sessions)
    : Exc + gmap string Tube :=
  resolve_loop time_ref (get_reservations st) ∅.

(** ** reserve *)

Record ReserveReq := mkReserveReq {
  rreq_name : string;
  rreq_entry : string;
  rreq_exit : string;
  rreq_time_ref : option datetime;      (* [None]: not an ISO time *)
  rreq_earliest_entry : pyfloat;
  rreq_latest_entry : pyfloat
}.

(** The messages of the three assertions of [reserve]. *)
Inductive AssertMsg :=
| InvalidWindowOffsetting (offset : Q)  (* 'Negotiation Failed: Invalid window offsetting (offset=..)' *)
| InvalidEntryWindow                    (* 'Negotiation Failed: Invalid entry window requested' *)
| NoTimeWindow.                         (* 'Negotiation Faild: No time window to enter region' *)

(** The values of [resp.reason]. *)
Inductive Reason :=
| ReasonUnknown                         (* 'Unknown.' *)
| MalformedISOTime
| IllegalEntry
| IllegalExit
| IllegalRoute
| ReservationLate (too_late : Q)
| ReservationError (msg : AssertMsg)
| ReasonEmpty.                          (* '' *)

Record ReserveResp := mkReserveResp {
  rresp_success : bool;
  rresp_reason : Reason;
  rresp_time_ref : option datetime;
  rresp_earliest_entry : Q;
  rresp_latest_entry : Q;
  rresp_earliest_exit : Q;
  rresp_latest_exit : Q
}.

Definition rejected (reason : Reason) : ReserveResp :=
  mkReserveResp false reason None 0 0 0 0.

(** The clamping and the alignment of the requested window: the shifted
    [time_ref], the two entry bounds and the offset.  [math.floor] raises
    [ValueError] on NaN and [OverflowError] on an infinity; [timedelta]
    and the sum raise [OverflowError] out of their ranges. *)
Definition align_window (time_ref : datetime) (req : ReserveReq)
    : Exc + datetime * Q * pyfloat * Q :=
  let earliest_entry := pf_round1 (pf_max (rreq_earliest_entry req) 0) in
  let latest_entry :=
    pf_round1 (pf_min (rreq_latest_entry req) (inject_Z TIME_HORIZON)) in
  match earliest_entry with
  | nan => inl ValueError
  | inf _ => inl OverflowError
  | finite earliest_entry =>
      let offset :=
        round1 (inject_Z (floor earliest_entry) + py_mod earliest_entry TIME_STEP) in
      if negb (timedelta_in_range (timedelta_of_seconds offset)) then
        inl OverflowError
      else
        let time_ref := time_ref + timedelta_of_seconds offset in
        if negb (datetime_in_range time_ref) then inl OverflowError
        else
          let earliest_entry := (earliest_entry - offset)%Q in
          let latest_entry := pf_sub latest_entry offset in
          inr (time_ref, earliest_entry, latest_entry, offset)
  end.

Definition window_ok (earliest_entry latest_entry : Q) : bool :=
  Qleb 0 earliest_entry && Qleb earliest_entry latest_entry
  && Qleb latest_entry (inject_Z TIME_HORIZON).

(** The [try] block of [reserve], from the shifted window on: an
    exception other than [AssertionError] ([inl]), the message of a failed
    assertion, or the names the [else] block hands to [add_reservation]. *)
Definition negotiate (sid : string) (req : ReserveReq) (time_ref : datetime)
    (st : Sessions) : Exc + (AssertMsg + Reservation) :=
  match align_window time_ref req with
  | inl e => inl e
  | inr (time_ref, earliest_entry, nan, offset)
  | inr (time_ref, earliest_entry, inf _, offset) =>
      (* no comparison with NaN holds, nor does [0 <= .. <= -inf] *)
      inr (inl (InvalidWindowOffsetting offset))
  | inr (time_ref, earliest_entry, finite latest_entry, offset) =>
      if negb (window_ok earliest_entry latest_entry) then
        inr (inl (InvalidWindowOffsetting offset))
      else
        let max_window_entry :=
          round1 (py_min (latest_entry - earliest_entry) (inject_Z MAX_WINDOW_ENTRY)) in
        if Qeq_bool max_window_entry 0 then
          inr (inl InvalidEntryWindow)
        else
          match resolve_dangers time_ref st with
          | inl e => inl e
          | inr dangers =>
              let dangers :=
                omap (λ '(_id, danger),
                        if decide (String.substring 0 5 _id ≠ String.substring 0 5 sid)
                        then Some danger else None)
                     (map_to_list dangers) in
              let result :=
                run_analysis (rreq_entry req) (rreq_exit req) dangers max_window_entry in
              let earliest_entry := py_max earliest_entry (an_earliest_entry result) in
              let latest_entry := py_min latest_entry (an_latest_entry result) in
              let earliest_exit := an_earliest_exit result in
              let latest_exit := an_latest_exit result in
              if negb (Qltb 0 (latest_entry - earliest_entry)) then
                inr (inl NoTimeWindow)
              else
                inr (inr (mkReservation (rreq_name req) time_ref
                            (rreq_entry req) (rreq_exit req)
                            earliest_entry latest_entry earliest_exit latest_exit
                            result))
          end
  end.

(** The response of a granted reservation. *)
Definition granted (r : Reservation) : ReserveResp :=
  mkReserveResp true ReasonEmpty (Some (res_time_ref r))
    (res_earliest_entry r) (res_latest_entry r)
    (res_earliest_exit r) (res_latest_exit r).

(** [self.reserve(sid, req, resp)]: the [except AssertionError] branch
    puts the message into the reason, the [else] branch stores the
    reservation and fills the response. *)
Definition reserve (sid : string) (req : ReserveReq) (st : Sessions)
    : Exc + ReserveResp * Sessions :=
  match rreq_time_ref req with
  | None => inr (rejected MalformedISOTime, st)
  | Some time_ref =>
      match negotiate sid req time_ref st with
      | inl e => inl e
      | inr (inl msg) => inr (rejected (ReservationError msg), st)
      | inr (inr r) => inr (granted r, add_reservation sid r st)
      end
  end.

(** The branch [if req.name not in self.sessions] only logs: it sets no
    reason and does not return, so it leaves no trace here. *)
Definition reserve_srv (now0 now : datetime)
    (req : ReserveReq) (st : Sessions) : Exc + ReserveResp * Sessions :=
  match rreq_time_ref req with
  | None => inr (rejected MalformedISOTime, st)
  | Some time_ref =>
      if negb (bool_decide (rreq_entry req ∈ ENTRY_LOCATIONS)) then
        inr (rejected IllegalEntry, st)
      else if negb (bool_decide (rreq_exit req ∈ EXIT_LOCATIONS)) then
        inr (rejected IllegalExit, st)
      else if negb (bool_decide ((rreq_entry req, rreq_exit req) ∈ PERMITTED_ROUTES)) then
        inr (rejected IllegalRoute, st)
      else
        let latest_reserve_time :=
          latest_reserve_time now0 st (rreq_name req) time_ref in
        if latest_reserve_time <? now then
          inr (rejected (ReservationLate (total_seconds (now - latest_reserve_time))), st)
        else
          reserve (rreq_name req) req st
  end.

(** The checks a request has passed when [reserve_srv] calls [reserve]. *)
Definition admitted (now0 now : datetime) (req : ReserveReq) (st : Sessions)
    (time_ref : datetime) : Prop :=
  rreq_time_ref req = Some time_ref
  ∧ rreq_entry req ∈ ENTRY_LOCATIONS
  ∧ rreq_exit req ∈ EXIT_LOCATIONS
  ∧ (rreq_entry req, rreq_exit req) ∈ PERMITTED_ROUTES
  ∧ now ≤ latest_reserve_time now0 st (rreq_name req) time_ref.

(** ** SessionReaper *)

(** The body of the loop of the sweep, for one element of the snapshot. *)
Definition sweep (now : datetime) (sessions : Sessions) (p : string * Session) : Sessions :=
  let '(sid, sess) := p in
  if sess_session_timeout sess <? now then delete sid sessions else sessions.

(** [clock] is the value of [datetime.now()]. *)
Definition clean_sessions_tmr (clock : datetime) (st : Sessions) : Sessions :=
  let now := replace_microsecond_0 clock in
  foldl (sweep now) st (get_sessions st).

End Server.

Abbreviation Sessions := (gmap string Session).

(** ** The session life cycle as a transition system *)

Section Lifecycle.
Context `{solver : Solver}.

(** One request served, or one tick of the sweep.  A [reserve] request
    that ends in an exception stores nothing and is no step. *)
Inductive step : Sessions → Sessions → Prop :=
| step_connect token now0 now req st :
    step st (connect_srv token now0 now req st).2
| step_notify now0 now req st :
    step st (notify_srv now0 now req st).2
| step_reserve now0 now req st resp st' :
    reserve_srv now0 now req st = inr (resp, st') →
    step st st'
| step_clean clock st :
    step st (clean_sessions_tmr clock st).

(** The tables a server can be in, started with [self.sessions = {}]. *)
Inductive reachable : Sessions → Prop :=
| reachable_init : reachable ∅
| reachable_step st st' : reachable st → step st st' → reachable st'.

End Lifecycle.

(** ** The stand-in server (ltms/scripts/fake_server.py) *)

Module Fake.
Section Fake.
Context `{solver : Solver}.

(** Modelled from the spec: [SessionMgr.iterate(skip=..)], of the module
    [session_mgr], which is not among the sources.  The store's
    [forEachExcept(id, fn)] iterates over a snapshot of the sessions,
    leaving out the given ids. *)
Definition iterate (skip : list string) (st : Sessions) : list (string * Session) :=
  filter (λ '(sid, _), sid ∉ skip) (map_to_list st).

Fixpoint count_unreserved_hpv (ego_arrival_time : datetime)
    (l : list (string * Session)) (num_unreserved_hpv : Z) : option Z :=
  match l with
  | [] => Some num_unreserved_hpv
  | (oth_sid, oth_sess) :: l' =>
      let ego_before_other :=
        total_seconds (sess_arrival_time oth_sess - ego_arrival_time) in
      if sess_reserved oth_sess then
        if Qltb 0 ego_before_other then None
        else count_unreserved_hpv ego_arrival_time l' num_unreserved_hpv
      else
        if Qltb 0 ego_before_other
        then count_unreserved_hpv ego_arrival_time l' num_unreserved_hpv
        else if Qltb (inject_Z TIME_HORIZON) (- ego_before_other)
        then count_unreserved_hpv ego_arrival_time l' num_unreserved_hpv
        else count_unreserved_hpv ego_arrival_time l' (num_unreserved_hpv + 1)
  end.

Definition latest_reserve_time (now : datetime) (st : Sessions)
    (ego_sid : string) (ego_arrival_time : datetime) : datetime :=
  match count_unreserved_hpv ego_arrival_time (iterate [ego_sid] st) 0 with
  | None => now
  | Some num_unreserved_hpv =>
      let time_needed := COMPUTE_TIME * (num_unreserved_hpv + 1) in
      ego_arrival_time - seconds time_needed
  end.

(** The keys [reserve] writes into the selected session, which are also
    the numbers of its response. *)
Record Stored := mkStored {
  st_name : string;
  st_time_ref : datetime;
  st_entry : string;
  st_exit : string;
  st_earliest_entry : Q;
  st_latest_entry : Q;
  st_earliest_exit : Q;
  st_latest_exit : Q
}.

(** [reserve] up to the write into the session: an exception, the
    reason of a failure, or the values then stored. *)
Definition reserve (req : ReserveReq) : Exc + (Reason + Stored) :=
  match rreq_time_ref req with
  | None => inr (inl MalformedISOTime)
  | Some time_ref =>
      match align_window time_ref req with
      | inl e => inl e
      | inr (time_ref, earliest_entry, nan, offset)
      | inr (time_ref, earliest_entry, inf _, offset) =>
          inr (inl (ReservationError (InvalidWindowOffsetting offset)))
      | inr (time_ref, earliest_entry, finite latest_entry, offset) =>
          if negb (window_ok earliest_entry latest_entry) then
            inr (inl (ReservationError (InvalidWindowOffsetting offset)))
          else
            let max_window_entry :=
              round1 (py_min (latest_entry - earliest_entry)
                             (inject_Z MAX_WINDOW_ENTRY)) in
            if Qeq_bool max_window_entry 0 then
              inr (inl (ReservationError InvalidEntryWindow))
            else
              let earliest_exit := (earliest_entry + inject_Z TRANSIT_TIME)%Q in
              let latest_exit := (latest_entry + inject_Z TRANSIT_TIME)%Q in
              if negb (Qltb 0 (latest_entry - earliest_entry)) then
                inr (inl (ReservationError NoTimeWindow))
              else
                inr (inr (mkStored (rreq_name req) time_ref
                            (rreq_entry req) (rreq_exit req)
                            earliest_entry latest_entry earliest_exit latest_exit))
      end
  end.

End Fake.
End Fake.

(** ** Fixtures for concrete runs *)

(** A solver in the manner of the stand-in server: it grants the entry
    window from 0 to [max_window_entry] and the exit window one
    [TRANSIT_TIME] later; its tube has one slice per point of the
    timeline. *)
Definition transit_engine (N : nat) : Solver := {|
  Frame := Z;
  ones := 1;
  timeline_len := N;
  run_analysis := λ _ _ _ max_window_entry,
    mkAnalysis 0 max_window_entry
               (0 + inject_Z TRANSIT_TIME)%Q
               (max_window_entry + inject_Z TRANSIT_TIME)%Q
               (replicate N 0)
|}.

(** The table of a server that has just started. *)
Definition started : gmap string (@Session (transit_engine 76)) := ∅.

(** The dictionary [dangers = {}]. *)
Definition no_dangers : gmap string (@Tube (transit_engine 76)) := ∅.

(** A vehicle connects for an arrival one minute ahead .. *)
Definition connected : gmap string (@Session (transit_engine 76)) :=
  (connect_srv "deadbeef" 0 0 (mkConnectReq "svea_0" (seconds 60)) started).2.

Definition first_reserve : ReserveReq :=
  mkReserveReq "svea_0" "left" "right" (Some (seconds 60)) (4 # 10) 3.

(** .. and reserves the route from left to right. *)
Definition reserved_once : gmap string (@Session (transit_engine 76)) :=
  match reserve_srv 0 0 first_reserve connected with
  | inr (_, st) => st
  | inl _ => connected
  end.

Definition second_reserve : ReserveReq :=
  mkReserveReq "svea_0" "top" "bottom" (Some (seconds 100)) 0 2.

(** ** Notions of the specification *)

Section SpecNotions.
Context `{solver : Solver}.

(** Another session that is unreserved, arrives no later than ego and at
    most [TIME_HORIZON] before it. *)
Definition contender (ego_sid : string) (ego_arrival : datetime)
    (p : string * Session) : Prop :=
  p.1 ≠ ego_sid ∧ sess_reserved p.2 = false
  ∧ sess_arrival_time p.2 ≤ ego_arrival
  ∧ ego_arrival - sess_arrival_time p.2 ≤ seconds TIME_HORIZON.

#[global] Instance contender_dec ego_sid ego_arrival p :
  Decision (contender ego_sid ego_arrival p).
Proof. unfold contender. apply _. Defined.

Definition contenders (ego_sid : string) (ego_arrival : datetime) (st : Sessions) : Z :=
  Z.of_nat (length (filter (contender ego_sid ego_arrival) (map_to_list st))).

(** No other session is reserved with a strictly later arrival. *)
Definition no_violation (ego_sid : string) (ego_arrival : datetime) (st : Sessions) : Prop :=
  map_Forall (λ sid sess, sid ≠ ego_sid → sess_reserved sess = true →
                          sess_arrival_time sess ≤ ego_arrival) st.

#[global] Instance no_violation_dec ego_sid ego_arrival st :
  Decision (no_violation ego_sid ego_arrival st).
Proof. unfold no_violation. apply _. Defined.

(** The same of a snapshot [l] of the sessions. *)
Definition quiet (ego_sid : string) (ego_arrival : datetime)
    (l : list (string * Session)) : Prop :=
  ∀ sid sess, (sid, sess) ∈ l → sid ≠ ego_sid →
              sess_reserved sess = true → sess_arrival_time sess ≤ ego_arrival.




(** The window of a stored reservation as the data model words it. *)
Definition entry_bounds (earliest_entry latest_entry : Q) : Prop :=
  (0 <= earliest_entry ∧ earliest_entry <= latest_entry
   ∧ latest_entry <= inject_Z TIME_HORIZON)%Q.


Definition exits_by_transit (earliest_entry latest_entry earliest_exit latest_exit : Q) : Prop :=
  (earliest_exit == earliest_entry + inject_Z TRANSIT_TIME
   ∧ latest_exit == latest_entry + inject_Z TRANSIT_TIME)%Q.

(** What [reserve] of server.py leaves in a reservation: entry bounds
    within the horizon, the earliest strictly before the latest, and the
    exits as the solver returned them. *)
Definition granted_window (r : Reservation) : Prop :=
  entry_bounds (res_earliest_entry r) (res_latest_entry r)
  ∧ (res_earliest_entry r < res_latest_entry r)%Q
  ∧ res_earliest_exit r = an_earliest_exit (res_analysis r)
  ∧ res_latest_exit r = an_latest_exit (res_analysis r).

(** Every reservation in the table is such a one, in a reserved session. *)
Definition table_ok (st : Sessions) : Prop :=
  ∀ sid sess r, st !! sid = Some sess → sess_reservation sess = Some r →
                sess_reserved sess = true ∧ granted_window r.

(** The sessions the sweep is to delete at the instant [now]. *)
Definition timed_out (now : datetime) (sess : Session) : Prop :=
  sess_session_timeout sess ≤ now.

End SpecNotions.

(** ** Further functions of server.py *)

(** [range(lo, hi)]. *)
Definition py_range (lo hi : Z) : list Z :=
  (λ k : nat, lo + Z.of_nat k) <$> seq 0 (Z.to_nat (hi - lo)).

(** [around(l, e, n)]: the [n] neighbours on either side of the first
    occurrence of [e] in [l], wrapping around the ends.  [None] is the
    [IndexError] of an element access out of range. *)
Definition around {A} `{EqDecision A} (l : list A) (e : A) (n : Z) : option (list A) :=
  match list_find (λ x, x = e) l with
  | None => Some []
  | Some (i, _) =>
      let N := Z.of_nat (length l) in
      mapM (λ j, l !! Z.to_nat ((Z.of_nat i + j) mod N)) (py_range (- n) (n + 1))
  end.

Section ServerMore.
Context `{solver : Solver}.

(** Another session that is reserved and arrives strictly later than
    ego: the case in which [latest_reserve_time] returns the clock. *)
Definition violation (ego_sid : string) (ego_arrival : datetime)
    (p : string * Session) : Prop :=
  p.1 ≠ ego_sid ∧ sess_reserved p.2 = true ∧ ego_arrival < sess_arrival_time p.2.

#[global] Instance violation_dec ego_sid ego_arrival p :
  Decision (violation ego_sid ego_arrival p).
Proof. unfold violation. apply _. Defined.

(** What the handlers keep true of every session of the table: the
    timeout follows the arrival, a session is reserved exactly when it
    holds a reservation, and a reservation is filed under its own name
    with a permitted route. *)
Definition session_wf (sid : string) (sess : Session) : Prop :=
  sess_session_timeout sess = sess_arrival_time sess + SESSION_TIMEOUT
  ∧ (sess_reserved sess = true ↔ is_Some (sess_reservation sess))
  ∧ ∀ r, sess_reservation sess = Some r →
         res_name r = sid ∧ (res_entry r, res_exit r) ∈ PERMITTED_ROUTES.

Definition table_wf (st : Sessions) : Prop := map_Forall session_wf st.

End ServerMore.

(** * Properties *)

(** ** Arithmetic of the helpers *)

Lemma Qltb_lt (x y : Q) : Qltb x y = true ↔ (x < y)%Q.
Proof.
  unfold Qltb. rewrite negb_true_iff, <- not_true_iff_false, Qle_bool_iff.
  split; [apply Qnot_le_lt | apply Qlt_not_le].
Qed.

Lemma Qltb_ge (x y : Q) : Qltb x y = false ↔ (y <= x)%Q.
Proof.
  unfold Qltb. rewrite negb_false_iff. apply Qle_bool_iff.
Qed.

Lemma Qleb_le (x y : Q) : Qleb x y = true ↔ (x <= y)%Q.
Proof. apply Qle_bool_iff. Qed.

Lemma total_seconds_pos (d : timedelta) : Qltb 0 (total_seconds d) = (0 <? d).
Proof.
  destruct (Z.ltb_spec 0 d) as [H|H].
  - apply Qltb_lt. unfold Qlt, total_seconds. simpl. lia.
  - apply Qltb_ge. unfold Qle, total_seconds. simpl. lia.
Qed.

Lemma total_seconds_past_horizon (d : timedelta) :
  Qltb (inject_Z TIME_HORIZON) (- total_seconds d) = (seconds TIME_HORIZON <? - d).
Proof.
  unfold seconds, MICRO, TIME_HORIZON.
  destruct (Z.ltb_spec (15 * 1000000) (- d)) as [H|H].
  - apply Qltb_lt. unfold Qlt, total_seconds. simpl. lia.
  - apply Qltb_ge. unfold Qle, total_seconds. simpl. lia.
Qed.

Lemma py_max_ge_l (a b : Q) : (a <= py_max a b)%Q.
Proof.
  unfold py_max. destruct (Qltb a b) eqn:E.
  - apply Qltb_lt in E. lra.
  - lra.
Qed.

Lemma py_min_le_l (a b : Q) : (py_min a b <= a)%Q.
Proof.
  unfold py_min. destruct (Qltb b a) eqn:E.
  - apply Qltb_lt in E. lra.
  - lra.
Qed.

(** ** PriorityClock *)

Section PriorityClock.
Context `{solver : Solver}.
Implicit Types (st : Sessions) (l : list (string * Session)).

Lemma quiet_cons ego_sid ego_arrival p l :
  quiet ego_sid ego_arrival (p :: l) → quiet ego_sid ego_arrival l.
Proof. intros H sid sess Hin. apply H. by right. Qed.

Lemma no_violation_quiet ego_sid ego_arrival st :
  no_violation ego_sid ego_arrival st →
  quiet ego_sid ego_arrival (map_to_list st).
Proof.
  intros H sid sess Hin. apply (H sid sess). by apply elem_of_map_to_list.
Qed.

Lemma count_unreserved_hpv_quiet ego_sid ego_arrival l n :
  quiet ego_sid ego_arrival l →
  count_unreserved_hpv ego_sid ego_arrival l n
  = Some (n + Z.of_nat (length (filter (contender ego_sid ego_arrival) l))).
Proof.
  revert n. induction l as [|[sid sess] l IH]; intros n Hq.
  - simpl. f_equal. lia.
  - pose proof (IH n (quiet_cons _ _ _ _ Hq)) as IHn.
    pose proof (IH (n + 1) (quiet_cons _ _ _ _ Hq)) as IHn1.
    assert (Hhd : sid ≠ ego_sid → sess_reserved sess = true →
                  sess_arrival_time sess ≤ ego_arrival)
      by (apply Hq; left).
    rewrite filter_cons. cbn [count_unreserved_hpv].
    rewrite total_seconds_pos, total_seconds_past_horizon.
    unfold seconds, MICRO, TIME_HORIZON in *.
    destruct (String.eqb_spec sid ego_sid) as [Heq|Hne].
    { rewrite decide_False; [done | unfold contender; simpl; tauto]. }
    destruct (sess_reserved sess) eqn:Hres.
    { specialize (Hhd Hne eq_refl).
      rewrite (proj2 (Z.ltb_ge _ _)) by lia.
      rewrite decide_False; [done | unfold contender; simpl; rewrite Hres; intros (_ & ? & _); congruence]. }
    destruct (Z.ltb_spec 0 (sess_arrival_time sess - ego_arrival)).
    { rewrite decide_False; [done | unfold contender; simpl; lia]. }
    destruct (Z.ltb_spec (15 * 1000000) (- (sess_arrival_time sess - ego_arrival))).
    { rewrite decide_False; [done | unfold contender, seconds, MICRO, TIME_HORIZON; simpl; lia]. }
    rewrite decide_True.
    + rewrite IHn1. f_equal. simpl length. lia.
    + unfold contender, seconds, MICRO, TIME_HORIZON; simpl. repeat split; [done | done | lia | lia].
Qed.

Lemma fake_count_unreserved_hpv_quiet ego_sid ego_arrival l n :
  quiet ego_sid ego_arrival l →
  Fake.count_unreserved_hpv ego_arrival
    (filter (λ '(sid, _), sid ∉ [ego_sid]) l) n
  = Some (n + Z.of_nat (length (filter (contender ego_sid ego_arrival) l))).
Proof.
  revert n. induction l as [|[sid sess] l IH]; intros n Hq.
  - simpl. f_equal. lia.
  - pose proof (IH n (quiet_cons _ _ _ _ Hq)) as IHn.
    pose proof (IH (n + 1) (quiet_cons _ _ _ _ Hq)) as IHn1.
    assert (Hhd : sid ≠ ego_sid → sess_reserved sess = true →
                  sess_arrival_time sess ≤ ego_arrival)
      by (apply Hq; left).
    rewrite !filter_cons.
    destruct (decide (sid ∉ [ego_sid])) as [Hne|Heq].
    2:{ rewrite decide_False; [done |].
        unfold contender; simpl. intros [Hne _]. apply Heq. by intros ->%list_elem_of_singleton. }
    assert (sid ≠ ego_sid) as Hne' by (intros ->; apply Hne; by left).
    cbn [Fake.count_unreserved_hpv].
    rewrite total_seconds_pos, total_seconds_past_horizon.
    unfold seconds, MICRO, TIME_HORIZON in *.
    destruct (sess_reserved sess) eqn:Hres.
    { specialize (Hhd Hne' eq_refl).
      rewrite (proj2 (Z.ltb_ge _ _)) by lia.
      rewrite decide_False; [done | unfold contender; simpl; rewrite Hres; intros (_ & ? & _); congruence]. }
    destruct (Z.ltb_spec 0 (sess_arrival_time sess - ego_arrival)).
    { rewrite decide_False; [done | unfold contender; simpl; lia]. }
    destruct (Z.ltb_spec (15 * 1000000) (- (sess_arrival_time sess - ego_arrival))).
    { rewrite decide_False; [done | unfold contender, seconds, MICRO, TIME_HORIZON; simpl; lia]. }
    rewrite decide_True.
    + rewrite IHn1. f_equal. simpl length. lia.
    + unfold contender, seconds, MICRO, TIME_HORIZON; simpl. repeat split; [done | done | lia | lia].
Qed.

(** C2, as the code has it.  When no other session is reserved with a
    strictly later arrival, [latest_reserve_time] of server.py is the
    arrival minus [COMPUTE_TIME] times the number of contenders plus TWO
    (one slot for ego and one of heuristic extra time); the variant of
    fake_server.py, without the extra slot, is the arrival minus
    [COMPUTE_TIME] times the number of contenders plus one. *)
Theorem latest_reserve_time_contenders now st ego_sid ego_arrival :
  no_violation ego_sid ego_arrival st →
  latest_reserve_time now st ego_sid ego_arrival
  = ego_arrival - seconds (COMPUTE_TIME * (contenders ego_sid ego_arrival st + 2))
  ∧ Fake.latest_reserve_time now st ego_sid ego_arrival
  = ego_arrival - seconds (COMPUTE_TIME * (contenders ego_sid ego_arrival st + 1)).
Proof.
  intros Hq%no_violation_quiet. split.
  - unfold latest_reserve_time, get_sessions.
    rewrite count_unreserved_hpv_quiet by done.
    unfold contenders, seconds. lia.
  - unfold Fake.latest_reserve_time, Fake.iterate.
    rewrite fake_count_unreserved_hpv_quiet by done.
    unfold contenders, seconds. lia.
Qed.

End PriorityClock.

(** A second vehicle asks for an arrival five seconds after the first,
    which is connected and unreserved: one contender. *)
Lemma latest_reserve_time_contenders_witness :
  no_violation "svea_1" (seconds 65) connected
  ∧ latest_reserve_time 0 connected "svea_1" (seconds 65)
    = seconds 65 - seconds (COMPUTE_TIME * (contenders "svea_1" (seconds 65) connected + 2))
  ∧ Fake.latest_reserve_time 0 connected "svea_1" (seconds 65)
    = seconds 65 - seconds (COMPUTE_TIME * (contenders "svea_1" (seconds 65) connected + 1)).
Proof.
  assert (Hq : no_violation "svea_1" (seconds 65) connected).
  { apply (bool_decide_unpack _ (dec := no_violation_dec _ _ _)). vm_compute. exact I. }
  split; [exact Hq |].
  exact (latest_reserve_time_contenders 0 connected "svea_1" (seconds 65) Hq).
Defined.

(** C2 as stated fails on server.py: with one contender the deadline is
    30 s before the arrival, not 20 s. *)
Lemma latest_reserve_time_extra_slot :
  no_violation "svea_1" (seconds 65) connected
  ∧ contenders "svea_1" (seconds 65) connected = 1
  ∧ latest_reserve_time 0 connected "svea_1" (seconds 65) = seconds 65 - seconds 30
  ∧ latest_reserve_time 0 connected "svea_1" (seconds 65)
    ≠ seconds 65 - seconds (COMPUTE_TIME * (contenders "svea_1" (seconds 65) connected + 1)).
Proof.
  split; [apply (bool_decide_unpack _ (dec := no_violation_dec _ _ _)); vm_compute; exact I |].
  split; [vm_compute; reflexivity |].
  split; [vm_compute; reflexivity |].
  vm_compute. discriminate.
Qed.

(** ** SessionReaper *)

Section Reaper.
Context `{solver : Solver}.
Implicit Types (st sessions : Sessions) (l : list (string * Session)).

Lemma clean_sessions_tmr_foldl clock st :
  clean_sessions_tmr clock st
  = foldl (sweep (replace_microsecond_0 clock)) st (map_to_list st).
Proof. reflexivity. Qed.

Lemma sweep_absent now l sessions sid :
  sessions !! sid = None → foldl (sweep now) sessions l !! sid = None.
Proof.
  revert sessions. induction l as [|[k s] l IH]; intros sessions Hm; [done |].
  simpl. apply IH. destruct (_ <? _); [| done].
  rewrite lookup_delete. by case_decide.
Qed.

Lemma sweep_kept now l sessions sid :
  (∀ sess, (sid, sess) ∈ l → now ≤ sess_session_timeout sess) →
  foldl (sweep now) sessions l !! sid = sessions !! sid.
Proof.
  revert sessions. induction l as [|[k s] l IH]; intros sessions Hl; [done |].
  simpl. rewrite IH by (intros sess Hin; apply Hl; by right).
  destruct (Z.ltb_spec (sess_session_timeout s) now) as [Hlt|]; [| done].
  rewrite lookup_delete_ne; [done |].
  intros ->. specialize (Hl s (list_elem_of_here _ _)). lia.
Qed.

Lemma sweep_deleted now l sessions sid sess :
  (sid, sess) ∈ l → sess_session_timeout sess < now →
  foldl (sweep now) sessions l !! sid = None.
Proof.
  revert sessions. induction l as [|[k s] l IH]; intros sessions Hin Hlt.
  - by apply elem_of_nil in Hin.
  - apply elem_of_cons in Hin as [[= <- <-]|Hin].
    + simpl. rewrite (proj2 (Z.ltb_lt _ _) Hlt).
      apply sweep_absent, lookup_delete_eq.
    + simpl. by apply IH.
Qed.

Lemma clean_sessions_tmr_lookup clock st sid :
  clean_sessions_tmr clock st !! sid
  = sess ← st !! sid;
    if sess_session_timeout sess <? replace_microsecond_0 clock
    then None else Some sess.
Proof.
  rewrite clean_sessions_tmr_foldl.
  destruct (st !! sid) as [sess|] eqn:Hst; simpl.
  - destruct (Z.ltb_spec (sess_session_timeout sess) (replace_microsecond_0 clock)).
    + apply sweep_deleted with sess; [by apply elem_of_map_to_list | done].
    + rewrite sweep_kept; [done |].
      intros sess' Hin%elem_of_map_to_list. congruence.
  - by apply sweep_absent.
Qed.

Lemma replace_microsecond_0_bounds clock :
  replace_microsecond_0 clock ≤ clock < replace_microsecond_0 clock + MICRO.
Proof.
  unfold replace_microsecond_0, MICRO.
  pose proof (Z.mod_pos_bound clock 1000000). lia.
Qed.

(** C8, as the code has it.  A tick of the sweep that reads the clock at
    [clock] deletes exactly the sessions whose [session_timeout] is
    STRICTLY before [clock] truncated to the whole second, and keeps every
    other session as it is. *)
Theorem clean_sessions_tmr_strictly_before clock st sid :
  clean_sessions_tmr clock st !! sid
  = sess ← st !! sid;
    if decide (sess_session_timeout sess < replace_microsecond_0 clock)
    then None else Some sess.
Proof.
  rewrite clean_sessions_tmr_lookup.
  destruct (st !! sid) as [sess|]; simpl; [| done].
  destruct (Z.ltb_spec (sess_session_timeout sess) (replace_microsecond_0 clock));
    case_decide; done || lia.
Qed.

(** A session that has timed out for a full second is deleted whatever
    the microseconds of the clock .. *)
Lemma clean_sessions_tmr_after_a_second clock st sid sess :
  st !! sid = Some sess →
  sess_session_timeout sess + MICRO ≤ clock →
  clean_sessions_tmr clock st !! sid = None.
Proof.
  intros Hst Hlate. rewrite clean_sessions_tmr_lookup, Hst. simpl.
  pose proof (replace_microsecond_0_bounds clock).
  rewrite (proj2 (Z.ltb_lt _ _)); [done | lia].
Qed.

(** .. and a session that has not timed out is never deleted. *)
Lemma clean_sessions_tmr_not_timed_out clock st sid sess :
  st !! sid = Some sess →
  ¬ timed_out clock sess →
  clean_sessions_tmr clock st !! sid = Some sess.
Proof.
  unfold timed_out. intros Hst Hlive.
  rewrite clean_sessions_tmr_lookup, Hst. simpl.
  pose proof (replace_microsecond_0_bounds clock).
  rewrite (proj2 (Z.ltb_ge _ _)); [done | lia].
Qed.

End Reaper.

(** C8 as stated fails: the session of [connected] times out at second 90;
    a sweep one millisecond later, and a sweep at that very instant, both
    keep it, although its timeout is at or before the clock. *)
Lemma clean_sessions_tmr_keeps_timed_out :
  ∃ sess, connected !! "svea_0"%string = Some sess
  ∧ sess_session_timeout sess = seconds 90
  ∧ timed_out (seconds 90 + 1000) sess
  ∧ clean_sessions_tmr (seconds 90 + 1000) connected !! "svea_0"%string = Some sess
  ∧ timed_out (seconds 90) sess
  ∧ clean_sessions_tmr (seconds 90) connected !! "svea_0"%string = Some sess.
Proof.
  eexists. split; [vm_compute; reflexivity |].
  repeat split; vm_compute; congruence.
Qed.

(** ** NegotiationEngine: what the handlers do to the table *)

Section Negotiation.
Context `{solver : Solver}.
Implicit Types (st : Sessions) (sess : Session) (r : Reservation).

Lemma add_reservation_known sid r st sess :
  st !! sid = Some sess →
  add_reservation sid r st = <[sid := with_reservation sess r]> st.
Proof. unfold add_reservation, select_session. by intros ->. Qed.


Lemma add_reservation_other sid r st k :
  k ≠ sid → add_reservation sid r st !! k = st !! k.
Proof.
  intros Hne. unfold add_reservation, select_session.
  destruct (st !! sid); [| done]. by rewrite lookup_insert_ne.
Qed.

(** The two ways [reserve] ends without an exception. *)
Lemma reserve_inv sid req st resp st' :
  reserve sid req st = inr (resp, st') →
  (rresp_success resp = false ∧ st' = st)
  ∨ (∃ time_ref r, rreq_time_ref req = Some time_ref
       ∧ negotiate sid req time_ref st = inr (inr r)
       ∧ resp = granted r ∧ st' = add_reservation sid r st).
Proof.
  unfold reserve. destruct (rreq_time_ref req) as [time_ref|].
  - destruct (negotiate sid req time_ref st) as [e|[msg|r]] eqn:Hn.
    + discriminate.
    + intros [= <- <-]. by left.
    + intros [= <- <-]. right. by exists time_ref, r.
  - intros [= <- <-]. by left.
Qed.


Lemma reserve_srv_inv now0 now req st resp st' :
  reserve_srv now0 now req st = inr (resp, st') →
  (rresp_success resp = false ∧ st' = st)
  ∨ (∃ time_ref r, admitted now0 now req st time_ref
       ∧ negotiate (rreq_name req) req time_ref st = inr (inr r)
       ∧ resp = granted r ∧ st' = add_reservation (rreq_name req) r st).
Proof.
  unfold reserve_srv.
  destruct (rreq_time_ref req) as [time_ref|] eqn:Ht; [| intros [= <- <-]; by left].
  case_bool_decide as He; simpl; [| intros [= <- <-]; by left].
  case_bool_decide as Hx; simpl; [| intros [= <- <-]; by left].
  case_bool_decide as Hr; simpl; [| intros [= <- <-]; by left].
  destruct (Z.ltb_spec (latest_reserve_time now0 st (rreq_name req) time_ref) now)
    as [|Hl]; [intros [= <- <-]; by left |].
  intros [Hrej|(time_ref' & r & Ht' & Hn & -> & ->)]%reserve_inv; [by left |].
  right. exists time_ref, r. assert (time_ref' = time_ref) as -> by congruence.
  by repeat split.
Qed.

(** What a granted reservation holds. *)
Lemma negotiate_granted sid req time_ref st r :
  negotiate sid req time_ref st = inr (inr r) →
  res_name r = rreq_name req
  ∧ res_entry r = rreq_entry req ∧ res_exit r = rreq_exit req
  ∧ ∃ moved earliest_entry latest_entry offset,
      align_window time_ref req
      = inr (moved, earliest_entry, finite latest_entry, offset)
      ∧ res_time_ref r = moved
      ∧ window_ok earliest_entry latest_entry = true
      ∧ (0 <= res_earliest_entry r ∧ res_earliest_entry r < res_latest_entry r
         ∧ res_latest_entry r <= inject_Z TIME_HORIZON)%Q
      ∧ res_earliest_entry r
        = py_max earliest_entry (an_earliest_entry (res_analysis r))
      ∧ res_latest_entry r
        = py_min latest_entry (an_latest_entry (res_analysis r))
      ∧ res_earliest_exit r = an_earliest_exit (res_analysis r)
      ∧ res_latest_exit r = an_latest_exit (res_analysis r).
Proof.
  unfold negotiate.
  destruct (align_window time_ref req)
    as [e|[[[time_ref' ee] [le| |b]] offset]]; try discriminate.
  destruct (window_ok ee le) eqn:Hw; simpl; [| discriminate].
  destruct (Qeq_bool _ 0); [discriminate |].
  destruct (resolve_dangers time_ref' st) as [e|dangers]; [discriminate |].
  match goal with |- context [run_analysis ?a ?b ?c ?d] =>
    generalize (run_analysis a b c d) end.
  intros result.
  destruct (Qltb 0 _) eqn:Hpos; simpl; [| discriminate].
  intros [= <-]. simpl. do 3 (split; [done |]).
  exists time_ref', ee, le, offset. repeat split; try done.
  - unfold window_ok in Hw.
    apply andb_true_iff in Hw as [[H0%Qleb_le _]%andb_true_iff _].
    pose proof (py_max_ge_l ee (an_earliest_entry result)). lra.
  - apply Qltb_lt in Hpos. lra.
  - unfold window_ok in Hw.
    apply andb_true_iff in Hw as [_ Hh%Qleb_le].
    pose proof (py_min_le_l le (an_latest_entry result)). lra.
Qed.

End Negotiation.

(** ** Sessions across requests *)

Section Requests.
Context `{solver : Solver}.
Implicit Types (st : Sessions) (sess : Session) (r : Reservation).

Lemma notify_srv_reserved now0 now req st sess :
  st !! nreq_usr_id req = Some sess → sess_reserved sess = true →
  (notify_srv now0 now req st).2 = st.
Proof.
  intros Hst Hres. unfold notify_srv, select_session.
  destruct (_ <? now); [done |]. by rewrite Hst, Hres.
Qed.

Lemma notify_srv_other now0 now req st k :
  k ≠ nreq_usr_id req → (notify_srv now0 now req st).2 !! k = st !! k.
Proof.
  intros Hne. unfold notify_srv, select_session.
  destruct (_ <? now); [done |].
  destruct (st !! nreq_usr_id req) as [sess|]; [| done].
  destruct (sess_reserved sess); [done |]. simpl. by rewrite lookup_insert_ne.
Qed.

Lemma connect_srv_other token now0 now req st k :
  k ≠ creq_usr_id req → (connect_srv token now0 now req st).2 !! k = st !! k.
Proof.
  intros Hne. unfold connect_srv, sessions_add.
  destruct (_ <? now); [done |]. simpl. by rewrite lookup_insert_ne.
Qed.

(** C1, as the code has it.  A further [reserve] request on a session that
    is already reserved is served like a first one: there is no check of
    the [reserved] flag.  When it is refused (malformed time, illegal
    route, deadline passed, a failed assertion of the negotiation) the
    table is left as it is; when it is granted, the session's stored
    reservation is replaced by the newly negotiated one and [reserved]
    stays true. *)
Theorem reserve_srv_on_reserved now0 now req st sess resp st' :
  st !! rreq_name req = Some sess →
  sess_reserved sess = true →
  reserve_srv now0 now req st = inr (resp, st') →
  (rresp_success resp = false ∧ st' = st)
  ∨ (∃ r, rresp_success resp = true ∧ resp = granted r
       ∧ res_entry r = rreq_entry req ∧ res_exit r = rreq_exit req
       ∧ st' = <[rreq_name req := with_reservation sess r]> st).
Proof.
  intros Hst Hres [Hrej|(time_ref & r & Hadm & Hn & -> & ->)]%reserve_srv_inv;
    [by left | right].
  exists r. apply negotiate_granted in Hn as (_ & He & Hx & _).
  repeat split; try done. by apply add_reservation_known.
Qed.

(** C3, as the code has it.  A session whose [reserved] flag is true is
    left untouched by every [notify], stays reserved across every
    [reserve], is either kept as it is or deleted by a sweep, and is left
    untouched by a [connect] of another user id.  A [connect] with the
    session's own user id is either refused, leaving the table as it is,
    or replaces the session by a fresh one whose [reserved] flag is
    false. *)
Theorem reserved_stays_true st sid sess :
  st !! sid = Some sess →
  sess_reserved sess = true →
  (∀ now0 now req, (notify_srv now0 now req st).2 !! sid = Some sess)
  ∧ (∀ now0 now req resp st',
       reserve_srv now0 now req st = inr (resp, st') →
       ∃ sess', st' !! sid = Some sess' ∧ sess_reserved sess' = true)
  ∧ (∀ clock, clean_sessions_tmr clock st !! sid = Some sess
              ∨ clean_sessions_tmr clock st !! sid = None)
  ∧ (∀ token now0 now req,
       creq_usr_id req ≠ sid →
       (connect_srv token now0 now req st).2 !! sid = Some sess)
  ∧ (∀ token now0 now req,
       creq_usr_id req = sid →
       (connect_srv token now0 now req st).2 = st
       ∨ ∃ sess', (connect_srv token now0 now req st).2 !! sid = Some sess'
                  ∧ sess_reserved sess' = false ∧ sess_reservation sess' = None).
Proof.
  intros Hst Hres. repeat split.
  - intros now0 now req. destruct (decide (sid = nreq_usr_id req)) as [->|Hne].
    + by rewrite (notify_srv_reserved _ _ _ _ sess).
    + by rewrite notify_srv_other.
  - intros now0 now req resp st'
      [[_ ->]|(time_ref & r & _ & _ & _ & ->)]%reserve_srv_inv; [by exists sess |].
    destruct (decide (sid = rreq_name req)) as [->|Hne].
    + exists (with_reservation sess r).
      rewrite (add_reservation_known _ _ _ sess) by done.
      by rewrite lookup_insert_eq.
    + exists sess. by rewrite add_reservation_other.
  - intros clock. rewrite clean_sessions_tmr_lookup, Hst. simpl.
    destruct (_ <? _); [by right | by left].
  - intros token now0 now req Hne. by rewrite connect_srv_other.
  - intros token now0 now req <-. unfold connect_srv, sessions_add.
    destruct (_ <? now); [by left | right]. simpl.
    eexists. by rewrite lookup_insert_eq.
Qed.


(** C5, as the code has it.  A [connect] that is accepted answers with
    the id ["its_" ++ token] but stores the new, unreserved session under
    the request's [usr_id] and under no other key.  A later [notify] with
    that [usr_id] is never refused as unconnected, and a later [reserve]
    with that [usr_id] as its name, once granted, stores its reservation
    in that session. *)
Theorem connect_srv_stores_under_usr_id token now0 now req st resp st' :
  connect_srv token now0 now req st = (resp, st') →
  cresp_transit_time resp = TRANSIT_TIME →
  cresp_its_id resp = ("its_" ++ token)%string
  ∧ st' !! creq_usr_id req
    = Some (mkSession (latest_reserve_time now0 st (creq_usr_id req) (creq_arrival_time req))
                      (creq_arrival_time req)
                      (creq_arrival_time req + SESSION_TIMEOUT) false None)
  ∧ (∀ k, k ≠ creq_usr_id req → st' !! k = st !! k)
  ∧ (∀ now1 now2 nreq,
       nreq_usr_id nreq = creq_usr_id req →
       nresp_transit_time (notify_srv now1 now2 nreq st').1 ≠ -3000)
  ∧ (∀ now1 now2 rreq rresp st'',
       rreq_name rreq = creq_usr_id req →
       reserve_srv now1 now2 rreq st' = inr (rresp, st'') →
       rresp_success rresp = true →
       ∃ sess r, st'' !! creq_usr_id req = Some sess
                 ∧ sess_reserved sess = true ∧ sess_reservation sess = Some r
                 ∧ rresp = granted r).
Proof.
  unfold connect_srv, sessions_add.
  destruct (_ <? now); intros [= <- <-]; simpl; [discriminate | intros _].
  set (fresh := mkSession _ _ _ _ _).
  split; [done |]. split; [by rewrite lookup_insert_eq |].
  split; [intros k Hne; by rewrite lookup_insert_ne |]. split.
  - intros now1 now2 nreq Hid. unfold notify_srv, select_session.
    destruct (_ <? now2); [done |].
    rewrite Hid, lookup_insert_eq. done.
  - intros now1 now2 rreq rresp st'' Hid
      [[Hrej _]|(time_ref & r & _ & _ & -> & ->)]%reserve_srv_inv Hok;
      [congruence |].
    exists (with_reservation fresh r), r. rewrite Hid.
    rewrite (add_reservation_known _ _ _ fresh) by apply lookup_insert_eq.
    by rewrite lookup_insert_eq.
Qed.

End Requests.

(** *** Concrete runs *)

(** C1 as stated fails: the session of [reserved_once] holds a reservation
    from left to right at second 60; a second [reserve] on the same id is
    granted and the session then holds the route from top to bottom at
    second 100. *)
Lemma second_reserve_overwrites :
  ∃ sess r resp st' r',
    reserved_once !! "svea_0"%string = Some sess
    ∧ sess_reserved sess = true ∧ sess_reservation sess = Some r
    ∧ (res_entry r, res_exit r, res_time_ref r) = ("left", "right", seconds 60)%string
    ∧ reserve_srv 0 0 second_reserve reserved_once = inr (resp, st')
    ∧ rresp_success resp = true ∧ rresp_reason resp = ReasonEmpty
    ∧ st' !! "svea_0"%string = Some (with_reservation sess r')
    ∧ (res_entry r', res_exit r', res_time_ref r') = ("top", "bottom", seconds 100)%string.
Proof.
  eexists _, _, _, _, _.
  split; [vm_compute; reflexivity |].
  split; [reflexivity |].
  split; [reflexivity |].
  split; [vm_compute; reflexivity |].
  split; [vm_compute; reflexivity |].
  split; [reflexivity |].
  split; [reflexivity |].
  split; [vm_compute; reflexivity |].
  vm_compute; reflexivity.
Qed.

Lemma reserve_srv_on_reserved_witness :
  ∃ sess resp st',
    reserved_once !! rreq_name second_reserve = Some sess
    ∧ sess_reserved sess = true
    ∧ reserve_srv 0 0 second_reserve reserved_once = inr (resp, st')
    ∧ ((rresp_success resp = false ∧ st' = reserved_once)
       ∨ (∃ r, rresp_success resp = true ∧ resp = granted r
            ∧ res_entry r = rreq_entry second_reserve
            ∧ res_exit r = rreq_exit second_reserve
            ∧ st' = <[rreq_name second_reserve := with_reservation sess r]> reserved_once)).
Proof.
  eexists _, _, _.
  refine (let H1 := _ in let H2 := _ in let H3 := _ in
          conj H1 (conj H2 (conj H3
            (reserve_srv_on_reserved 0 0 second_reserve reserved_once _ _ _ H1 H2 H3)))).
  Unshelve.
  all: try (vm_compute; reflexivity).
  all: try reflexivity.
Defined.

(** C3 as stated fails: the vehicle of [reserved_once] connects again
    under its user id, and its session is unreserved afterwards. *)
Lemma reconnect_resets_reserved :
  ∃ sess sess',
    reserved_once !! "svea_0"%string = Some sess
    ∧ sess_reserved sess = true
    ∧ (connect_srv "cafebabe" 0 0 (mkConnectReq "svea_0" (seconds 60)) reserved_once).2
        !! "svea_0"%string = Some sess'
    ∧ sess_reserved sess' = false ∧ sess_reservation sess' = None.
Proof.
  eexists _, _.
  split; [vm_compute; reflexivity |].
  split; [reflexivity |].
  split; [vm_compute; reflexivity |].
  split; reflexivity.
Qed.

Lemma reserved_stays_true_witness :
  ∃ sess,
    reserved_once !! "svea_0"%string = Some sess
    ∧ sess_reserved sess = true
    ∧ (notify_srv 0 0 (mkNotifyReq "svea_0" (seconds 70)) reserved_once).2
        !! "svea_0"%string = Some sess.
Proof.
  eexists.
  refine (let H1 := _ in let H2 := _ in
          conj H1 (conj H2
            (proj1 (reserved_stays_true reserved_once "svea_0" _ H1 H2) 0 0
                   (mkNotifyReq "svea_0" (seconds 70))))).
  Unshelve.
  all: try (vm_compute; reflexivity).
  all: try reflexivity.
Defined.


(** The defect next to it: [reserve_srv] logs the unknown session and
    carries on, so that a [reserve] with an id that is not in the table is
    answered as granted, while nothing is stored. *)
Lemma reserve_srv_unknown_is_granted :
  connected !! "ghost"%string = None
  ∧ ∃ resp,
      reserve_srv 0 0
        (mkReserveReq "ghost" "left" "right" (Some (seconds 60)) 0 2) connected
      = inr (resp, connected)
      ∧ rresp_success resp = true.
Proof.
  split; [vm_compute; reflexivity |].
  eexists. split; [vm_compute; reflexivity | reflexivity].
Qed.


(** C5 as stated fails: the accepted [connect] answers with the id
    [its_deadbeef]; no session is stored under it, a [notify] with it is
    refused as unconnected, and a [reserve] with it stores nothing. *)
Lemma its_id_is_no_key :
  ∃ resp st' rresp,
    connect_srv "deadbeef" 0 0 (mkConnectReq "svea_0" (seconds 60)) started = (resp, st')
    ∧ cresp_transit_time resp = TRANSIT_TIME
    ∧ cresp_its_id resp = "its_deadbeef"%string
    ∧ st' !! "its_deadbeef"%string = None
    ∧ notify_srv 0 0 (mkNotifyReq "its_deadbeef" (seconds 60)) st'
      = (mkNotifyResp (-3000) None, st')
    ∧ reserve_srv 0 0
        (mkReserveReq "its_deadbeef" "left" "right" (Some (seconds 60)) 0 2) st'
      = inr (rresp, st').
Proof.
  eexists _, _, _.
  split; [vm_compute; reflexivity |].
  split; [reflexivity |].
  split; [reflexivity |].
  split; [vm_compute; reflexivity |].
  split; vm_compute; reflexivity.
Qed.

Lemma connect_srv_stores_under_usr_id_witness :
  ∃ resp st',
    connect_srv "deadbeef" 0 0 (mkConnectReq "svea_0" (seconds 60)) started = (resp, st')
    ∧ cresp_transit_time resp = TRANSIT_TIME
    ∧ cresp_its_id resp = "its_deadbeef"%string
    ∧ st' !! "svea_0"%string
      = Some (mkSession (seconds 40) (seconds 60) (seconds 90) false None).
Proof.
  eexists _, _.
  refine (let H1 := _ in let H2 := _ in
          conj H1 (conj H2
            (let H := connect_srv_stores_under_usr_id
                        "deadbeef" 0 0 (mkConnectReq "svea_0" (seconds 60)) started _ _ H1 H2
             in conj (proj1 H) (proj1 (proj2 H))))).
  Unshelve.
  all: try (vm_compute; reflexivity).
  all: try reflexivity.
Defined.

(** ** ConflictResolver *)

Section Resolver.
Context `{solver : Solver}.
Implicit Types (st : Sessions) (sess : Session) (r : Reservation).
Implicit Types (l : list (string * option Reservation)) (dangers : gmap string Tube).

Lemma elem_of_get_reservations st sid o :
  (sid, o) ∈ get_reservations st
  ↔ ∃ sess, st !! sid = Some sess ∧ sess_reserved sess = true
            ∧ o = sess_reservation sess.
Proof.
  unfold get_reservations, get_sessions. rewrite list_elem_of_omap. split.
  - intros ([k sess] & Hin%elem_of_map_to_list & Hsome).
    destruct (sess_reserved sess) eqn:Hres; [| discriminate].
    injection Hsome as <- <-. by exists sess.
  - intros (sess & Hst & Hres & ->). exists (sid, sess).
    split; [by apply elem_of_map_to_list | by rewrite Hres].
Qed.

Lemma danger_of_no_overlap time_ref r :
  (overlap time_ref r <= 0)%Q → danger_of time_ref r = inr None.
Proof.
  unfold overlap, danger_of. intros Hle%Qltb_ge. by rewrite Hle.
Qed.

(** Sessions the loop skips leave the dictionary as it is. *)
Lemma resolve_loop_skips time_ref l dangers :
  (∀ sid o, (sid, o) ∈ l → ∃ r, o = Some r ∧ danger_of time_ref r = inr None) →
  resolve_loop time_ref l dangers = inr dangers.
Proof.
  induction l as [|[sid o] l IH]; intros Hl; [done |].
  destruct (Hl sid o (list_elem_of_here _ _)) as (r & -> & Hskip).
  simpl. rewrite Hskip. apply IH. intros sid' o' Hin. apply (Hl sid' o'). by right.
Qed.

(** Every entry of the result was there before the loop or comes from a
    reservation for which the loop stored an array. *)
Lemma resolve_loop_entries time_ref l dangers dangers' sid tube :
  resolve_loop time_ref l dangers = inr dangers' →
  dangers' !! sid = Some tube →
  dangers !! sid = Some tube
  ∨ ∃ r tube', (sid, Some r) ∈ l ∧ danger_of time_ref r = inr (Some tube').
Proof.
  revert dangers. induction l as [|[k [r|]] l IH]; intros dangers; simpl.
  - intros [= <-] Hd. by left.
  - destruct (danger_of time_ref r) as [e|[danger|]] eqn:Hdanger; [done | |].
    + intros Hloop Hd. destruct (IH _ Hloop Hd) as [Hin|(r' & t' & Hin & Hr')].
      * destruct (decide (k = sid)) as [->|Hne].
        -- right. exists r, danger. split; [left | done].
        -- left. by rewrite lookup_insert_ne in Hin.
      * right. exists r', t'. split; [by right | done].
    + intros Hloop Hd. destruct (IH _ Hloop Hd) as [Hin|(r' & t' & Hin & Hr')].
      * by left.
      * right. exists r', t'. split; [by right | done].
  - done.
Qed.

(** C9.  With no reserved session [resolve_dangers] returns the empty
    dictionary; so it does when every reserved session has a zero or
    negative overlap with the window asked for; and whatever else is in the
    table, a reserved session with a zero or negative overlap has no entry
    in the dictionary returned. *)
Theorem resolve_dangers_without_overlap time_ref st :
  ((∀ sid sess, st !! sid = Some sess → sess_reserved sess = false) →
   resolve_dangers time_ref st = inr ∅)
  ∧ ((∀ sid sess, st !! sid = Some sess → sess_reserved sess = true →
        ∃ r, sess_reservation sess = Some r ∧ (overlap time_ref r <= 0)%Q) →
     resolve_dangers time_ref st = inr ∅)
  ∧ (∀ sid sess r dangers,
       st !! sid = Some sess → sess_reserved sess = true →
       sess_reservation sess = Some r → (overlap time_ref r <= 0)%Q →
       resolve_dangers time_ref st = inr dangers →
       dangers !! sid = None).
Proof.
  assert (Hall : (∀ sid sess, st !! sid = Some sess → sess_reserved sess = true →
                    ∃ r, sess_reservation sess = Some r ∧ (overlap time_ref r <= 0)%Q) →
                 resolve_dangers time_ref st = inr ∅).
  { intros Hno. apply resolve_loop_skips.
    intros sid o Hin. apply elem_of_get_reservations in Hin as (sess & Hst & Hres & ->).
    destruct (Hno sid sess Hst Hres) as (r & Hr & Hov).
    exists r. split; [done | by apply danger_of_no_overlap]. }
  split; [| split; [exact Hall |]].
  - intros Hnone. apply Hall. intros sid sess Hst Hres.
    rewrite (Hnone sid sess Hst) in Hres. discriminate.
  - intros sid sess r dangers Hst Hres Hr Hov Hloop.
    destruct (dangers !! sid) as [tube|] eqn:Hd; [exfalso | done].
    destruct (resolve_loop_entries _ _ _ _ _ _ Hloop Hd)
      as [Hin|(r' & tube' & Hin & Hr')]; [by rewrite lookup_empty in Hin |].
    apply elem_of_get_reservations in Hin as (sess' & Hst' & _ & Heq).
    assert (sess' = sess) as -> by congruence.
    assert (r' = r) as -> by congruence.
    rewrite danger_of_no_overlap in Hr' by done. discriminate.
Qed.

End Resolver.

(** The reservation of [reserved_once] starts at second 60 and a horizon
    is 15 s long: the window asked for at second 100 does not meet it. *)
Lemma resolve_dangers_without_overlap_witness :
  ∃ sess r,
    reserved_once !! "svea_0"%string = Some sess
    ∧ sess_reserved sess = true ∧ sess_reservation sess = Some r
    ∧ (overlap (seconds 100) r <= 0)%Q
    ∧ resolve_dangers (seconds 100) reserved_once = inr no_dangers
    ∧ no_dangers !! "svea_0"%string = None.
Proof.
  eexists _, _.
  refine (let H1 := _ in let H2 := _ in let H3 := _ in let H4 := _ in let H5 := _ in
          conj H1 (conj H2 (conj H3 (conj H4 (conj H5
            (proj2 (proj2 (resolve_dangers_without_overlap (seconds 100) reserved_once))
                   "svea_0"%string _ _ no_dangers H1 H2 H3 H4 H5)))))).
  Unshelve.
  all: try (vm_compute; reflexivity).
  all: try reflexivity.
  vm_compute. discriminate.
Defined.

(** ** The splice of [resolve_dangers] *)

Lemma norm_index_bounds len k : 0 ≤ len → 0 ≤ norm_index len k ≤ len.
Proof. unfold norm_index. intros. destruct (k <? 0) eqn:E; lia. Qed.

Lemma slice_bounds_ordered len lo hi a b :
  0 ≤ len → slice_bounds len lo hi = (a, b) → 0 ≤ a ≤ b ∧ b ≤ len.
Proof.
  unfold slice_bounds. intros Hlen [= <- <-].
  destruct lo as [k|], hi as [k'|];
    try pose proof (norm_index_bounds len k Hlen);
    try pose proof (norm_index_bounds len k' Hlen); lia.
Qed.

Lemma length_py_slice {A} lo hi (l : list A) a b :
  slice_bounds (Z.of_nat (length l)) lo hi = (a, b) →
  length (py_slice lo hi l) = Z.to_nat (b - a).
Proof.
  intros Hb. unfold py_slice. rewrite Hb.
  apply slice_bounds_ordered in Hb as [? ?]; [| lia].
  rewrite length_take, length_drop. lia.
Qed.

Lemma assign_slice_mismatch {A} lo hi (dst src : list A) a b :
  slice_bounds (Z.of_nat (length dst)) lo hi = (a, b) →
  length src ≠ Z.to_nat (b - a) → length src ≠ 1%nat →
  assign_slice lo hi dst src = inl ValueError.
Proof.
  intros Hb Hne H1. unfold assign_slice. rewrite Hb.
  rewrite decide_False by done.
  destruct src as [|x [|y src]]; [done | | done]. by destruct H1.
Qed.

Lemma assign_slice_conformant {A} lo hi (dst src : list A) a b :
  slice_bounds (Z.of_nat (length dst)) lo hi = (a, b) →
  length src = Z.to_nat (b - a) →
  assign_slice lo hi dst src
  = inr (take (Z.to_nat a) dst ++ src ++ drop (Z.to_nat b) dst).
Proof.
  intros Hb Heq. unfold assign_slice. rewrite Hb. by rewrite decide_True.
Qed.

(** The two indices: ceiling division of a duration by [TIME_STEP]. *)
Lemma ceil_time_steps (d : timedelta) :
  ceil (total_seconds d / TIME_STEP) = - ((- d) / 200000).
Proof.
  unfold ceil, Qceiling, Qfloor, total_seconds, TIME_STEP, Qdiv, Qmult, Qinv, Qopp.
  simpl. f_equal.
  transitivity ((- d * 10) `div` (200000 * 10)).
  - f_equal; lia.
  - apply Z.div_mul_cancel_r; lia.
Qed.

Section Splice.
Context `{solver : Solver}.
Implicit Types (st : Sessions) (sess : Session) (r : Reservation).

(** The window asked for starts first (the branch [time_ref <
    earliest_overlap]). *)
Lemma danger_of_earlier time_ref r :
  time_ref < res_time_ref r < time_ref + seconds TIME_HORIZON →
  danger_of time_ref r
  = keep (assign_slice
            (Some (ceil (total_seconds (res_time_ref r - time_ref) / TIME_STEP))) None
            (replicate timeline_len ones)
            (py_slice None
               (Some (ceil (total_seconds
                              (time_ref + seconds TIME_HORIZON - res_time_ref r)
                            / TIME_STEP)))
               (an_pass4 (res_analysis r)))).
Proof.
  intros Hin. unfold danger_of.
  rewrite Z.max_r, Z.min_l by lia.
  rewrite total_seconds_pos.
  rewrite (proj2 (Z.ltb_lt 0 _)) by lia.
  by rewrite (proj2 (Z.ltb_lt time_ref _)) by lia.
Qed.

(** The reservation starts first, or both start together (the [else]
    branch). *)
Lemma danger_of_later time_ref r :
  res_time_ref r ≤ time_ref < res_time_ref r + seconds TIME_HORIZON →
  danger_of time_ref r
  = let i := ceil (total_seconds (time_ref - res_time_ref r) / TIME_STEP) in
    let j := ceil (total_seconds
                     (res_time_ref r + seconds TIME_HORIZON - time_ref)
                   / TIME_STEP) in
    keep (assign_slice None (Some j) (replicate timeline_len ones)
            (py_slice (Some i) (Some (i + j)) (an_pass4 (res_analysis r)))).
Proof.
  intros Hin. unfold danger_of.
  rewrite Z.max_l, Z.min_r by lia.
  rewrite total_seconds_pos.
  rewrite (proj2 (Z.ltb_lt 0 _)) by lia.
  by rewrite (proj2 (Z.ltb_ge time_ref _)) by lia.
Qed.

(** A window that starts a whole second before the reservation: the
    destination [danger[5:]] and the source [pass4[:70]] differ in length
    unless the timeline has 75 points. *)
Lemma danger_of_second_before r :
  (2 ≤ timeline_len)%nat → timeline_len ≠ 75%nat →
  length (an_pass4 (res_analysis r)) = timeline_len →
  danger_of (res_time_ref r - seconds 1) r = inl ValueError.
Proof.
  intros HN H75 Hlen. rewrite danger_of_earlier by (unfold seconds, MICRO, TIME_HORIZON; lia).
  replace (res_time_ref r - (res_time_ref r - seconds 1)) with 1000000
    by (unfold seconds, MICRO; lia).
  replace (res_time_ref r - seconds 1 + seconds TIME_HORIZON - res_time_ref r)
    with 14000000 by (unfold seconds, MICRO, TIME_HORIZON; lia).
  assert (ceil (total_seconds 1000000 / TIME_STEP) = 5) as -> by (vm_compute; reflexivity).
  assert (ceil (total_seconds 14000000 / TIME_STEP) = 70) as -> by (vm_compute; reflexivity).
  erewrite assign_slice_mismatch; [done | reflexivity | |].
  - erewrite length_py_slice by reflexivity. rewrite Hlen, length_replicate.
    unfold norm_index. simpl. lia.
  - erewrite length_py_slice by reflexivity. rewrite Hlen.
    unfold norm_index. simpl. lia.
Qed.

(** A window that starts half a second before the reservation: the
    destination [danger[3:]] and the source [pass4[:73]] differ in length
    when the timeline has 75 points. *)
Lemma danger_of_half_second_before r :
  timeline_len = 75%nat →
  length (an_pass4 (res_analysis r)) = timeline_len →
  danger_of (res_time_ref r - 500000) r = inl ValueError.
Proof.
  intros H75 Hlen. rewrite danger_of_earlier by (unfold seconds, MICRO, TIME_HORIZON; lia).
  replace (res_time_ref r - (res_time_ref r - 500000)) with 500000 by lia.
  replace (res_time_ref r - 500000 + seconds TIME_HORIZON - res_time_ref r)
    with 14500000 by (unfold seconds, MICRO, TIME_HORIZON; lia).
  assert (ceil (total_seconds 500000 / TIME_STEP) = 3) as -> by (vm_compute; reflexivity).
  assert (ceil (total_seconds 14500000 / TIME_STEP) = 73) as -> by (vm_compute; reflexivity).
  erewrite assign_slice_mismatch; [done | reflexivity | |].
  - erewrite length_py_slice by reflexivity. rewrite Hlen, length_replicate, H75.
    unfold norm_index. simpl. lia.
  - erewrite length_py_slice by reflexivity. rewrite Hlen, H75.
    unfold norm_index. simpl. lia.
Qed.

Lemma resolve_dangers_singleton time_ref sid sess r :
  sess_reserved sess = true → sess_reservation sess = Some r →
  resolve_dangers time_ref {[sid := sess]}
  = match danger_of time_ref r with
    | inl e => inl e
    | inr None => inr ∅
    | inr (Some danger) => inr {[sid := danger]}
    end.
Proof.
  intros Hres Hr. unfold resolve_dangers, get_reservations, get_sessions.
  rewrite map_to_list_singleton. simpl. rewrite Hres, Hr. simpl.
  by destruct (danger_of time_ref r) as [e|[danger|]].
Qed.

(** C10 fails on the code.  Whatever the length of the timeline, from two
    points on, a table with a single reserved session whose tube has that
    length makes [resolve_dangers] raise [ValueError] for a window whose
    overlap is positive: the one starting a second before the reservation
    or, for a timeline of 75 points, the one starting half a second before
    it. *)
Theorem resolve_dangers_shape_mismatch sid sess r :
  (2 ≤ timeline_len)%nat →
  sess_reserved sess = true → sess_reservation sess = Some r →
  length (an_pass4 (res_analysis r)) = timeline_len →
  ∃ time_ref,
    (0 < overlap time_ref r)%Q
    ∧ resolve_dangers time_ref {[sid := sess]} = inl ValueError.
Proof.
  intros HN Hres Hr Hlen. destruct (decide (timeline_len = 75%nat)) as [H75|H75].
  - exists (res_time_ref r - 500000). split.
    + apply Qltb_lt. unfold overlap. rewrite total_seconds_pos.
      apply Z.ltb_lt. unfold seconds, MICRO, TIME_HORIZON. lia.
    + rewrite (resolve_dangers_singleton _ _ _ r) by done.
      by rewrite danger_of_half_second_before.
  - exists (res_time_ref r - seconds 1). split.
    + apply Qltb_lt. unfold overlap. rewrite total_seconds_pos.
      apply Z.ltb_lt. unfold seconds, MICRO, TIME_HORIZON. lia.
    + rewrite (resolve_dangers_singleton _ _ _ r) by done.
      by rewrite danger_of_second_before.
Qed.

End Splice.

(** The timeline of 76 points: the tube stored in [reserved_once] starts
    at second 60, and the window asked for at second 59 gives the indices
    5 and 70. *)
Lemma resolve_dangers_shape_mismatch_witness :
  ∃ (sess : @Session (transit_engine 76)) r,
    (2 ≤ @timeline_len (transit_engine 76))%nat
    ∧ sess_reserved sess = true ∧ sess_reservation sess = Some r
    ∧ length (an_pass4 (res_analysis r)) = @timeline_len (transit_engine 76)
    ∧ reserved_once !! "svea_0"%string = Some sess
    ∧ ∃ time_ref,
        (0 < overlap time_ref r)%Q
        ∧ resolve_dangers time_ref (<["svea_0"%string := sess]> started)
          = inl ValueError.
Proof.
  eexists _, _.
  refine (let H0 := _ in let H1 := _ in let H2 := _ in let H3 := _ in let H4 := _ in
          conj H0 (conj H1 (conj H2 (conj H3 (conj H4
            (resolve_dangers_shape_mismatch "svea_0"%string _ _ H0 H1 H2 H3)))))).
  Unshelve.
  all: try (vm_compute; reflexivity).
  all: try reflexivity.
  simpl. lia.
Defined.

(** The same through the handler: the vehicle of [reserved_once] asks
    again, for a window that starts a second earlier, and the request ends
    in the exception. *)
Lemma reserve_srv_raises_value_error :
  reserve_srv 0 0
    (mkReserveReq "svea_0" "left" "right" (Some (seconds 59)) 0 2) reserved_once
  = inl ValueError.
Proof. vm_compute; reflexivity. Qed.

(** For comparison, a window that starts half a second earlier gives the
    indices 3 and 73, which add up to the 76 points, and is granted. *)
Lemma reserve_srv_off_the_grid_granted :
  ∃ resp st',
    reserve_srv 0 0
      (mkReserveReq "svea_0" "left" "right" (Some (seconds 59 + 500000)) 0 2)
      reserved_once
    = inr (resp, st')
    ∧ rresp_success resp = true.
Proof. eexists _, _. split; [vm_compute; reflexivity | reflexivity]. Qed.

(** ** The window of a reservation *)

Lemma round_half_even_whole (x : Q) (k : Z) :
  (x == inject_Z k)%Q → round_half_even x = k.
Proof.
  intros Hx. unfold round_half_even.
  assert (Hf : Qfloor x = k) by (rewrite (Qfloor_comp _ _ Hx); apply Qfloor_Z).
  rewrite Hf. rewrite (proj2 (Qltb_lt _ _)); [done |].
  rewrite Hx. lra.
Qed.















Lemma window_ok_entry_bounds (earliest_entry latest_entry : Q) :
  window_ok earliest_entry latest_entry = true
  ↔ entry_bounds earliest_entry latest_entry.
Proof.
  unfold window_ok, entry_bounds. rewrite !andb_true_iff, !Qleb_le. tauto.
Qed.




Section Window.
Context `{solver : Solver}.
Implicit Types (st : Sessions) (sess : Session) (r : Reservation).




End Window.

(** ** Stored reservations *)

Section Stored.
Context `{solver : Solver}.
Implicit Types (st : Sessions) (sess : Session) (r : Reservation).

Lemma negotiate_granted_window sid req time_ref st r :
  negotiate sid req time_ref st = inr (inr r) → granted_window r.
Proof.
  intros (_ & _ & _ & moved & ee & le & offset & _ & _ & _
          & (H0 & Hlt & Hh) & _ & _ & Hee & Hle)%negotiate_granted.
  unfold granted_window, entry_bounds. repeat split; try done. lra.
Qed.

Lemma table_ok_step st st' : table_ok st → step st st' → table_ok st'.
Proof.
  intros Hok Hstep. destruct Hstep as
    [token now0 now req st|now0 now req st|now0 now req st resp st' Hsrv|clock st].
  - unfold connect_srv, sessions_add. destruct (_ <? now); [done |]. simpl.
    intros sid sess r Hst Hr.
    destruct (decide (creq_usr_id req = sid)) as [<-|Hne].
    + rewrite lookup_insert_eq in Hst. injection Hst as <-. discriminate.
    + rewrite lookup_insert_ne in Hst by done. by apply (Hok sid).
  - unfold notify_srv, select_session. destruct (_ <? now); [done |].
    destruct (st !! nreq_usr_id req) as [old|] eqn:Hold; [| done].
    destruct (sess_reserved old) eqn:Hres; [done |]. simpl.
    intros sid sess r Hst Hr.
    destruct (decide (nreq_usr_id req = sid)) as [<-|Hne].
    + rewrite lookup_insert_eq in Hst. injection Hst as <-. simpl in Hr.
      destruct (Hok _ _ _ Hold Hr) as [Hres' _]. congruence.
    + rewrite lookup_insert_ne in Hst by done. by apply (Hok sid).
  - apply reserve_srv_inv in Hsrv
      as [[_ ->]|(time_ref & r' & _ & Hn & _ & ->)]; [done |].
    intros sid sess r Hst Hr.
    destruct (decide (sid = rreq_name req)) as [->|Hne].
    + unfold add_reservation, select_session in Hst.
      destruct (st !! rreq_name req) as [old|] eqn:Hold.
      * rewrite lookup_insert_eq in Hst. injection Hst as <-.
        injection Hr as <-. split; [done |].
        by apply negotiate_granted_window in Hn.
      * rewrite Hold in Hst. discriminate.
    + rewrite add_reservation_other in Hst by done. by apply (Hok sid).
  - intros sid sess r Hst Hr. rewrite clean_sessions_tmr_lookup in Hst.
    destruct (st !! sid) as [old|] eqn:Hold; simpl in Hst; [| discriminate].
    destruct (_ <? _); [discriminate |]. injection Hst as <-.
    by apply (Hok sid).
Qed.

Lemma reachable_table_ok st : reachable st → table_ok st.
Proof.
  induction 1 as [|st st' _ IH Hstep].
  - intros sid sess r Hst. by rewrite lookup_empty in Hst.
  - by apply table_ok_step with st.
Qed.

Lemma fake_reserve_window req w :
  Fake.reserve req = inr (inr w) →
  entry_bounds (Fake.st_earliest_entry w) (Fake.st_latest_entry w)
  ∧ (Fake.st_earliest_entry w < Fake.st_latest_entry w)%Q
  ∧ exits_by_transit (Fake.st_earliest_entry w) (Fake.st_latest_entry w)
                     (Fake.st_earliest_exit w) (Fake.st_latest_exit w).
Proof.
  unfold Fake.reserve. destruct (rreq_time_ref req) as [time_ref|]; [| done].
  destruct (align_window time_ref req)
    as [e|[[[time_ref' ee] [le| |b]] offset]]; try done.
  destruct (window_ok ee le) eqn:Hw; simpl; [| done].
  destruct (Qeq_bool _ 0); [done |].
  destruct (Qltb 0 (le - ee)) eqn:Hpos; simpl; [| done].
  intros [= <-]. simpl. split; [by apply window_ok_entry_bounds |].
  split; [apply Qltb_lt in Hpos; lra |].
  unfold exits_by_transit. split; reflexivity.
Qed.

(** C6, as the code has it.  Every reservation in a table that the
    server of server.py can reach sits in a reserved session and has [0 <=
    earliest_entry < latest_entry <= TIME_HORIZON]; its two exits are the
    numbers the solver returned, whatever they are.  In fake_server.py,
    where there is no solver, the values [reserve] stores have the same
    bounds and the exits are the entries plus [TRANSIT_TIME]. *)
Theorem stored_reservation_window :
  (∀ st sid sess r,
     reachable st → st !! sid = Some sess → sess_reservation sess = Some r →
     sess_reserved sess = true
     ∧ entry_bounds (res_earliest_entry r) (res_latest_entry r)
     ∧ (res_earliest_entry r < res_latest_entry r)%Q
     ∧ res_earliest_exit r = an_earliest_exit (res_analysis r)
     ∧ res_latest_exit r = an_latest_exit (res_analysis r))
  ∧ (∀ req w,
       Fake.reserve req = inr (inr w) →
       entry_bounds (Fake.st_earliest_entry w) (Fake.st_latest_entry w)
       ∧ (Fake.st_earliest_entry w < Fake.st_latest_entry w)%Q
       ∧ exits_by_transit (Fake.st_earliest_entry w) (Fake.st_latest_entry w)
                          (Fake.st_earliest_exit w) (Fake.st_latest_exit w)).
Proof.
  split.
  - intros st sid sess r Hreach Hst Hr.
    destruct (reachable_table_ok st Hreach sid sess r Hst Hr) as [Hres Hw].
    split; [done | exact Hw].
  - apply fake_reserve_window.
Qed.

End Stored.

(** *** Concrete runs *)

Lemma reachable_reserved_once : reachable reserved_once.
Proof.
  apply reachable_step with connected.
  - apply reachable_step with started; [apply reachable_init |].
    apply (step_connect "deadbeef" 0 0 (mkConnectReq "svea_0" (seconds 60)) started).
  - eapply (step_reserve 0 0 first_reserve connected). vm_compute. reflexivity.
Qed.

(** C6 as stated fails on server.py: the request of [first_reserve] asks
    for the entry window from 0.4 s to 3 s; the solver grants entries from
    0 to 2 and exits from 15 to 17; the reservation stored keeps the later
    of the two earliest entries, 0.4, next to the solver's earliest exit,
    15, which is not 0.4 plus [TRANSIT_TIME]. *)
Lemma stored_exit_not_by_transit :
  ∃ sess r,
    reachable reserved_once
    ∧ reserved_once !! "svea_0"%string = Some sess
    ∧ sess_reservation sess = Some r
    ∧ (res_earliest_entry r == 4 # 10)%Q ∧ (res_latest_entry r == 2)%Q
    ∧ (res_earliest_exit r == 15)%Q ∧ (res_latest_exit r == 17)%Q
    ∧ ¬ exits_by_transit (res_earliest_entry r) (res_latest_entry r)
                         (res_earliest_exit r) (res_latest_exit r).
Proof.
  eexists _, _.
  split; [apply reachable_reserved_once |].
  split; [vm_compute; reflexivity |].
  split; [reflexivity |].
  repeat (split; [vm_compute; reflexivity |]).
  intros [H _]. vm_compute in H. discriminate.
Qed.

Lemma stored_reservation_window_witness :
  ∃ sess r,
    reachable reserved_once
    ∧ reserved_once !! "svea_0"%string = Some sess
    ∧ sess_reservation sess = Some r
    ∧ sess_reserved sess = true
    ∧ entry_bounds (res_earliest_entry r) (res_latest_entry r)
    ∧ (res_earliest_entry r < res_latest_entry r)%Q
    ∧ res_earliest_exit r = an_earliest_exit (res_analysis r)
    ∧ res_latest_exit r = an_latest_exit (res_analysis r).
Proof.
  eexists _, _.
  refine (let H1 := reachable_reserved_once in let H2 := _ in let H3 := _ in
          conj H1 (conj H2 (conj H3
            (proj1 stored_reservation_window reserved_once "svea_0"%string _ _ H1 H2 H3)))).
  Unshelve.
  all: try (vm_compute; reflexivity).
  all: try reflexivity.
Defined.





(** The neighbours of that request: an earliest entry of 0.6 s is moved
    by 0.2 s and granted, one of 0.4 s is not moved at all. *)
Lemma reserve_srv_alignment_tenths :
  ∃ resp st' resp2 st2,
    reserve_srv 0 0
      (mkReserveReq "svea_0" "left" "right" (Some (seconds 60)) (6 # 10) 3) connected
    = inr (resp, st')
    ∧ rresp_success resp = true
    ∧ rresp_time_ref resp = Some (seconds 60 + 200000)
    ∧ reserve_srv 0 0
        (mkReserveReq "svea_0" "left" "right" (Some (seconds 60)) (4 # 10) 3) connected
      = inr (resp2, st2)
    ∧ rresp_success resp2 = true
    ∧ rresp_time_ref resp2 = Some (seconds 60).
Proof.
  eexists _, _, _, _.
  repeat (split; [vm_compute; reflexivity |]).
  vm_compute; reflexivity.
Qed.

(** Entries that are no numbers: NaN and an infinity as the earliest
    entry raise out of the handler; as the latest entry NaN is refused. *)
Lemma reserve_srv_alignment_not_finite :
  reserve_srv 0 0
    (mkReserveReq "svea_0" "left" "right" (Some (seconds 60)) nan 3) connected
  = inl ValueError
  ∧ reserve_srv 0 0
      (mkReserveReq "svea_0" "left" "right" (Some (seconds 60)) (inf false) 3)
      connected
    = inl OverflowError
  ∧ reserve_srv 0 0
      (mkReserveReq "svea_0" "left" "right" (Some (seconds 60)) 0 nan) connected
    = inr (rejected (ReservationError (InvalidWindowOffsetting (0 # 10))), connected).
Proof. repeat split; vm_compute; reflexivity. Qed.

(** ** More on the PriorityClock *)

Section PriorityClockMore.
Context `{solver : Solver}.
Implicit Types (st : Sessions) (sess : Session) (l : list (string * Session)).

Lemma count_unreserved_hpv_violation ego_sid ego_arrival l n :
  Exists (violation ego_sid ego_arrival) l →
  count_unreserved_hpv ego_sid ego_arrival l n = None.
Proof.
  intros Hex. revert n. induction Hex as [[sid sess] l (Hne & Hres & Hlt)|[sid sess] l _ IH];
    intros n; cbn [count_unreserved_hpv].
  - simpl in *. rewrite (proj2 (String.eqb_neq _ _) Hne), Hres.
    rewrite total_seconds_pos. by rewrite (proj2 (Z.ltb_lt _ _)) by lia.
  - repeat (destruct (_ : bool)); by rewrite ?IH.
Qed.

Lemma fake_count_unreserved_hpv_violation ego_sid ego_arrival l n :
  Exists (violation ego_sid ego_arrival) l →
  Fake.count_unreserved_hpv ego_arrival
    (filter (λ '(sid, _), sid ∉ [ego_sid]) l) n = None.
Proof.
  intros Hex. revert n. induction Hex as [[sid sess] l (Hne & Hres & Hlt)|[sid sess] l _ IH];
    intros n; rewrite filter_cons.
  - simpl in *. rewrite decide_True by (by intros ->%list_elem_of_singleton).
    cbn [Fake.count_unreserved_hpv]. rewrite Hres, total_seconds_pos.
    by rewrite (proj2 (Z.ltb_lt _ _)) by lia.
  - case_decide; [| apply IH]. cbn [Fake.count_unreserved_hpv].
    repeat (destruct (_ : bool)); by rewrite ?IH.
Qed.

Lemma violation_in_table ego_sid ego_arrival st :
  ¬ no_violation ego_sid ego_arrival st ↔
  Exists (violation ego_sid ego_arrival) (map_to_list st).
Proof.
  rewrite Exists_exists. split.
  - intros Hno. apply map_not_Forall in Hno as (sid & sess & Hst & Hbad); [| apply _].
    exists (sid, sess). split; [by apply elem_of_map_to_list |].
    unfold violation. simpl.
    destruct (decide (sid = ego_sid)) as [->|Hne]; [by destruct Hbad |].
    destruct (sess_reserved sess) eqn:Hres; [| by destruct Hbad].
    repeat split; try done.
    destruct (decide (ego_arrival < sess_arrival_time sess)); [done |].
    destruct Hbad. intros _ _. lia.
  - intros ([sid sess] & Hin%elem_of_map_to_list & Hne & Hres & Hlt) Hno.
    specialize (Hno sid sess Hin Hne Hres). simpl in *. lia.
Qed.

(** The two outcomes of [latest_reserve_time], whatever the order in
    which the dictionary is iterated. *)
Lemma latest_reserve_time_cases now st ego_sid ego_arrival :
  latest_reserve_time now st ego_sid ego_arrival
  = if decide (no_violation ego_sid ego_arrival st)
    then ego_arrival - seconds (COMPUTE_TIME * (contenders ego_sid ego_arrival st + 2))
    else now.
Proof.
  unfold latest_reserve_time, get_sessions. case_decide as Hno.
  - rewrite count_unreserved_hpv_quiet by (by apply no_violation_quiet).
    unfold contenders, seconds. lia.
  - by rewrite count_unreserved_hpv_violation by (by apply violation_in_table).
Qed.

Lemma fake_latest_reserve_time_cases now st ego_sid ego_arrival :
  Fake.latest_reserve_time now st ego_sid ego_arrival
  = if decide (no_violation ego_sid ego_arrival st)
    then ego_arrival - seconds (COMPUTE_TIME * (contenders ego_sid ego_arrival st + 1))
    else now.
Proof.
  unfold Fake.latest_reserve_time, Fake.iterate. case_decide as Hno.
  - rewrite fake_count_unreserved_hpv_quiet by (by apply no_violation_quiet).
    unfold contenders, seconds. lia.
  - by rewrite fake_count_unreserved_hpv_violation by (by apply violation_in_table).
Qed.

(** X1.  When some other session is reserved and arrives strictly later
    than ego, [latest_reserve_time] returns the clock it reads, in
    server.py and in fake_server.py alike and wherever that session comes
    in the iteration. *)
Theorem latest_reserve_time_violation now st ego_sid ego_arrival oth_sid oth_sess :
  st !! oth_sid = Some oth_sess →
  oth_sid ≠ ego_sid →
  sess_reserved oth_sess = true →
  ego_arrival < sess_arrival_time oth_sess →
  latest_reserve_time now st ego_sid ego_arrival = now
  ∧ Fake.latest_reserve_time now st ego_sid ego_arrival = now.
Proof.
  intros Hst Hne Hres Hlt.
  assert (Hno : ¬ no_violation ego_sid ego_arrival st).
  { intros Hno. specialize (Hno oth_sid oth_sess Hst Hne Hres). simpl in Hno. lia. }
  rewrite latest_reserve_time_cases, fake_latest_reserve_time_cases.
  by rewrite !decide_False.
Qed.

Lemma no_violation_insert_ego ego_sid ego_arrival st sess :
  no_violation ego_sid ego_arrival (<[ego_sid := sess]> st)
  ↔ no_violation ego_sid ego_arrival st.
Proof.
  unfold no_violation. rewrite !map_Forall_lookup. split.
  - intros H sid s Hst Hne. apply (H sid s); [| done].
    by rewrite lookup_insert_ne.
  - intros H sid s Hst Hne. apply (H sid s); [| done].
    by rewrite lookup_insert_ne in Hst.
Qed.

Lemma contenders_cons_ego ego_sid ego_arrival sess l :
  length (filter (contender ego_sid ego_arrival) ((ego_sid, sess) :: l))
  = length (filter (contender ego_sid ego_arrival) l).
Proof.
  rewrite filter_cons, decide_False; [done |]. unfold contender. simpl. tauto.
Qed.

Lemma contenders_delete_ego ego_sid ego_arrival st :
  contenders ego_sid ego_arrival (delete ego_sid st)
  = contenders ego_sid ego_arrival st.
Proof.
  unfold contenders. f_equal.
  destruct (st !! ego_sid) as [sess|] eqn:Hst.
  - rewrite <- (contenders_cons_ego ego_sid ego_arrival sess).
    apply Permutation_length, filter_Permutation.
    by apply map_to_list_delete.
  - by rewrite delete_id.
Qed.

Lemma contenders_insert_ego ego_sid ego_arrival st sess :
  contenders ego_sid ego_arrival (<[ego_sid := sess]> st)
  = contenders ego_sid ego_arrival st.
Proof.
  rewrite <- (contenders_delete_ego _ _ (<[ego_sid := sess]> st)).
  by rewrite delete_insert_eq, contenders_delete_ego.
Qed.

(** X2.  The deadline of a vehicle does not depend on its own session:
    [latest_reserve_time] is the same whether the table holds a session
    under the vehicle's id, whatever its fields, or none. *)
Theorem latest_reserve_time_skips_ego now st ego_sid ego_arrival sess :
  latest_reserve_time now (<[ego_sid := sess]> st) ego_sid ego_arrival
  = latest_reserve_time now (delete ego_sid st) ego_sid ego_arrival
  ∧ latest_reserve_time now (<[ego_sid := sess]> st) ego_sid ego_arrival
    = latest_reserve_time now st ego_sid ego_arrival.
Proof.
  assert (H : latest_reserve_time now (<[ego_sid := sess]> st) ego_sid ego_arrival
              = latest_reserve_time now st ego_sid ego_arrival).
  { rewrite !latest_reserve_time_cases, contenders_insert_ego.
    destruct (decide (no_violation _ _ st)) as [Hno|Hno].
    - by rewrite decide_True by (by apply no_violation_insert_ego).
    - by rewrite decide_False by (by rewrite no_violation_insert_ego). }
  split; [| exact H].
  rewrite <- (insert_delete_eq st ego_sid sess) at 1.
  rewrite !latest_reserve_time_cases, contenders_insert_ego.
  destruct (decide (no_violation _ _ (delete ego_sid st))) as [Hno|Hno].
  - by rewrite decide_True by (by apply no_violation_insert_ego).
  - by rewrite decide_False by (by rewrite no_violation_insert_ego).
Qed.

(** X3.  Each further contender costs one compute slot: when a session
    that is unreserved, arrives no later than ego and at most
    [TIME_HORIZON] before it is added to a table without a priority
    violation, ego's deadline moves [COMPUTE_TIME] seconds earlier. *)
Theorem latest_reserve_time_one_more_contender
    now st ego_sid ego_arrival oth_sid oth_sess :
  no_violation ego_sid ego_arrival st →
  st !! oth_sid = None →
  contender ego_sid ego_arrival (oth_sid, oth_sess) →
  latest_reserve_time now (<[oth_sid := oth_sess]> st) ego_sid ego_arrival
  = latest_reserve_time now st ego_sid ego_arrival - seconds COMPUTE_TIME.
Proof.
  intros Hno Hfresh Hc. rewrite !latest_reserve_time_cases.
  rewrite (decide_True _ _ Hno). rewrite decide_True.
  - assert (contenders ego_sid ego_arrival (<[oth_sid := oth_sess]> st)
            = contenders ego_sid ego_arrival st + 1) as ->.
    { unfold contenders.
      rewrite (Permutation_length
                 (filter_Permutation _ _ _ (map_to_list_insert st oth_sid oth_sess Hfresh))).
      rewrite filter_cons, decide_True by done. simpl length. lia. }
    unfold seconds. lia.
  - unfold no_violation. apply map_Forall_insert; [done |]. split; [| done].
    destruct Hc as (_ & Hres & _). simpl in Hres. intros _. congruence.
Qed.

End PriorityClockMore.

(** ** More on the requests *)

Lemma permitted_route_distinct (entry exit : string) :
  (entry, exit) ∈ PERMITTED_ROUTES → entry ≠ exit.
Proof.
  intros Hin ->. revert Hin.
  let routes := eval vm_compute in PERMITTED_ROUTES in
  change PERMITTED_ROUTES with routes.
  rewrite !elem_of_cons, elem_of_nil.
  intros H. repeat (destruct H as [H|H]; [by injection H; intros; subst |]). done.
Qed.

Section RequestsMore.
Context `{solver : Solver}.
Implicit Types (st : Sessions) (sess : Session) (r : Reservation).

(** X4.  A request that is refused leaves the table of sessions as it
    is: a [connect] or a [notify] answered with anything but
    [TRANSIT_TIME], and a [reserve] answered without success. *)
Theorem refused_request_leaves_table st :
  (∀ token now0 now req,
     cresp_transit_time (connect_srv token now0 now req st).1 ≠ TRANSIT_TIME →
     (connect_srv token now0 now req st).2 = st)
  ∧ (∀ now0 now req,
       nresp_transit_time (notify_srv now0 now req st).1 ≠ TRANSIT_TIME →
       (notify_srv now0 now req st).2 = st)
  ∧ (∀ now0 now req resp st',
       reserve_srv now0 now req st = inr (resp, st') →
       rresp_success resp = false → st' = st).
Proof.
  split; [| split].
  - intros token now0 now req. unfold connect_srv.
    destruct (_ <? now); simpl; [done | by intros []].
  - intros now0 now req. unfold notify_srv, select_session.
    destruct (_ <? now); [done |].
    destruct (st !! nreq_usr_id req) as [sess|]; [| done].
    destruct (sess_reserved sess); simpl; [done | by intros []].
  - intros now0 now req resp st'
      [[_ ->]|(time_ref & r & _ & _ & -> & _)]%reserve_srv_inv; [done |].
    simpl. discriminate.
Qed.

(** X5.  A [notify] that is accepted can be repeated: with the same
    arrival and the same clock readings it is accepted again, with the
    same deadline, and leaves the table as the first one left it. *)
Theorem notify_srv_idempotent now0 now req st resp st' :
  notify_srv now0 now req st = (resp, st') →
  nresp_transit_time resp = TRANSIT_TIME →
  notify_srv now0 now req st' = (resp, st').
Proof.
  unfold notify_srv, select_session.
  destruct (Z.ltb_spec (latest_reserve_time now0 st (nreq_usr_id req)
                          (nreq_arrival_time req)) now) as [|Hl];
    [by intros [= <- <-] |].
  destruct (st !! nreq_usr_id req) as [sess|] eqn:Hst; [| by intros [= <- <-]].
  destruct (sess_reserved sess) eqn:Hres; [by intros [= <- <-] |].
  intros [= <- <-] _.
  assert (Hsame : ∀ s, latest_reserve_time now0 (<[nreq_usr_id req := s]> st)
                         (nreq_usr_id req) (nreq_arrival_time req)
                       = latest_reserve_time now0 st (nreq_usr_id req)
                           (nreq_arrival_time req)).
  { intros s. rewrite !latest_reserve_time_cases, contenders_insert_ego.
    destruct (decide (no_violation _ _ st)) as [Hno|Hno].
    - by rewrite decide_True by (by apply no_violation_insert_ego).
    - by rewrite decide_False by (by rewrite no_violation_insert_ego). }
  rewrite Hsame, (proj2 (Z.ltb_ge _ _) Hl), lookup_insert_eq. simpl.
  by rewrite insert_insert_eq.
Qed.

(** X6.  Priority: once the clock has moved on, a vehicle that asks for
    an arrival strictly before that of another, reserved session is
    refused by all three requests, with the code of a passed deadline
    (-1000) by [connect] and [notify] and without success by [reserve],
    and the table is left as it is. *)
Theorem later_reserved_session_blocks now0 now st ego_sid ego_arrival oth_sid oth_sess :
  st !! oth_sid = Some oth_sess →
  oth_sid ≠ ego_sid →
  sess_reserved oth_sess = true →
  ego_arrival < sess_arrival_time oth_sess →
  now0 < now →
  (∀ token, connect_srv token now0 now (mkConnectReq ego_sid ego_arrival) st
            = (mkConnectResp "" (-1000) None, st))
  ∧ notify_srv now0 now (mkNotifyReq ego_sid ego_arrival) st
    = (mkNotifyResp (-1000) None, st)
  ∧ (∀ entry exit earliest_entry latest_entry,
       ∃ reason,
         reserve_srv now0 now
           (mkReserveReq ego_sid entry exit (Some ego_arrival)
                         earliest_entry latest_entry) st
         = inr (rejected reason, st)).
Proof.
  intros Hst Hne Hres Hlt Hclock.
  assert (Hnow : latest_reserve_time now0 st ego_sid ego_arrival = now0).
  { rewrite latest_reserve_time_cases, decide_False; [done |].
    intros Hno. specialize (Hno oth_sid oth_sess Hst Hne Hres). simpl in Hno. lia. }
  split; [| split].
  - intros token. unfold connect_srv. simpl. rewrite Hnow.
    by rewrite (proj2 (Z.ltb_lt _ _) Hclock).
  - unfold notify_srv. simpl. rewrite Hnow.
    by rewrite (proj2 (Z.ltb_lt _ _) Hclock).
  - intros entry exit earliest_entry latest_entry. unfold reserve_srv. simpl.
    repeat (case_bool_decide; simpl; [| by eexists]).
    rewrite Hnow, (proj2 (Z.ltb_lt _ _) Hclock). by eexists.
Qed.

(** X7.  A [reserve] whose entry and exit are the same place, or whose
    pair of entry and exit is not a key of [PERMITTED_ROUTES], is refused
    for its entry, its exit or its route, whatever the session and the
    clock, and the table is left as it is. *)
Theorem reserve_srv_bad_route now0 now req st time_ref :
  rreq_time_ref req = Some time_ref →
  rreq_entry req = rreq_exit req ∨ (rreq_entry req, rreq_exit req) ∉ PERMITTED_ROUTES →
  ∃ reason,
    reserve_srv now0 now req st = inr (rejected reason, st)
    ∧ (reason = IllegalEntry ∨ reason = IllegalExit ∨ reason = IllegalRoute).
Proof.
  intros Ht Hbad.
  assert (Hnot : (rreq_entry req, rreq_exit req) ∉ PERMITTED_ROUTES).
  { destruct Hbad as [Heq|Hnot]; [| done].
    intros Hin%permitted_route_distinct. done. }
  unfold reserve_srv. rewrite Ht.
  case_bool_decide; simpl; [| eexists; split; [done | tauto]].
  case_bool_decide; simpl; [| eexists; split; [done | tauto]].
  rewrite bool_decide_eq_false_2 by done. simpl.
  eexists; split; [done | tauto].
Qed.

Lemma table_wf_step st st' : table_wf st → step st st' → table_wf st'.
Proof.
  unfold table_wf. rewrite !map_Forall_lookup.
  intros Hok Hstep. destruct Hstep as
    [token now0 now req st|now0 now req st|now0 now req st resp st' Hsrv|clock st].
  - unfold connect_srv, sessions_add. destruct (_ <? now); [done |]. simpl.
    intros sid sess Hst.
    destruct (decide (creq_usr_id req = sid)) as [<-|Hne].
    + rewrite lookup_insert_eq in Hst. injection Hst as <-.
      split; [done |]. split; [| done]. simpl. split; [done |].
      by intros [? [=]].
    + rewrite lookup_insert_ne in Hst by done. by apply Hok.
  - unfold notify_srv, select_session. destruct (_ <? now); [done |].
    destruct (st !! nreq_usr_id req) as [old|] eqn:Hold; [| done].
    destruct (sess_reserved old) eqn:Hres; [done |]. simpl.
    intros sid sess Hst.
    destruct (decide (nreq_usr_id req = sid)) as [<-|Hne].
    + rewrite lookup_insert_eq in Hst. injection Hst as <-.
      destruct (Hok _ _ Hold) as (_ & Hiff & Hr).
      split; [done |]. simpl. rewrite Hres in Hiff. done.
    + rewrite lookup_insert_ne in Hst by done. by apply Hok.
  - apply reserve_srv_inv in Hsrv
      as [[_ ->]|(time_ref & r' & Hadm & Hn & _ & ->)]; [done |].
    intros sid sess Hst.
    destruct (decide (sid = rreq_name req)) as [->|Hne].
    + unfold add_reservation, select_session in Hst.
      destruct (st !! rreq_name req) as [old|] eqn:Hold.
      * rewrite lookup_insert_eq in Hst. injection Hst as <-.
        destruct (Hok _ _ Hold) as (Ht & _ & _).
        apply negotiate_granted in Hn as (Hname & He & Hx & _).
        destruct Hadm as (_ & _ & _ & Hroute & _).
        split; [done |]. simpl. split; [by split; eauto |].
        intros r [= <-]. by rewrite Hname, He, Hx.
      * rewrite Hold in Hst. discriminate.
    + rewrite add_reservation_other in Hst by done. by apply Hok.
  - intros sid sess Hst. rewrite clean_sessions_tmr_lookup in Hst.
    destruct (st !! sid) as [old|] eqn:Hold; simpl in Hst; [| discriminate].
    destruct (_ <? _); [discriminate |]. injection Hst as <-.
    by apply Hok.
Qed.

Lemma reachable_table_wf st : reachable st → table_wf st.
Proof.
  induction 1 as [|st st' _ IH Hstep].
  - apply map_Forall_empty.
  - by apply table_wf_step with st.
Qed.

(** X8.  In every table the server can reach, the timeout of every
    session is its arrival time plus [SESSION_TIMEOUT]. *)
Theorem session_timeout_follows_arrival st sid sess :
  reachable st → st !! sid = Some sess →
  sess_session_timeout sess = sess_arrival_time sess + SESSION_TIMEOUT.
Proof.
  intros Hreach%reachable_table_wf Hst. by destruct (Hreach sid sess Hst).
Qed.

(** X9.  In every table the server can reach, a session holds a
    reservation exactly when its [reserved] flag is true, and a
    reservation is filed under its own name and has a permitted route,
    from an entry to a different exit. *)
Theorem reservation_filed_under_name st sid sess :
  reachable st → st !! sid = Some sess →
  (sess_reserved sess = true ↔ is_Some (sess_reservation sess))
  ∧ ∀ r, sess_reservation sess = Some r →
         res_name r = sid
         ∧ (res_entry r, res_exit r) ∈ PERMITTED_ROUTES
         ∧ res_entry r ≠ res_exit r.
Proof.
  intros Hreach%reachable_table_wf Hst.
  destruct (Hreach sid sess Hst) as (_ & Hiff & Hr). split; [done |].
  intros r Hsome. destruct (Hr r Hsome) as [Hname Hroute].
  repeat split; try done. by apply permitted_route_distinct.
Qed.

End RequestsMore.

(** ** More on the ConflictResolver *)

Lemma assign_slice_length {A} lo hi (dst src d : list A) :
  assign_slice lo hi dst src = inr d → length d = length dst.
Proof.
  unfold assign_slice.
  destruct (slice_bounds (Z.of_nat (length dst)) lo hi) as [a b] eqn:Hb.
  apply slice_bounds_ordered in Hb as [? ?]; [| lia].
  case_decide as Hlen.
  - intros [= <-]. rewrite !length_app, length_take, length_drop. lia.
  - destruct src as [|x [|y src]]; [done | | done].
    intros [= <-]. rewrite !length_app, length_take, length_replicate, length_drop. lia.
Qed.

Lemma assign_slice_raises {A} lo hi (dst src : list A) a b :
  slice_bounds (Z.of_nat (length dst)) lo hi = (a, b) →
  assign_slice lo hi dst src = inl ValueError
  ↔ length src ≠ Z.to_nat (b - a) ∧ length src ≠ 1%nat.
Proof.
  intros Hb. split.
  - unfold assign_slice. rewrite Hb. case_decide; [done |].
    destruct src as [|x [|y src]]; [done | done | done].
  - intros [? ?]. by apply assign_slice_mismatch with a b.
Qed.

Lemma keep_raises {A} (x : Exc + A) e : keep x = inl e ↔ x = inl e.
Proof. destruct x; simpl; split; congruence. Qed.

(** The two indices of the splice, for windows that start [d]
    microseconds apart. *)
Lemma ceil_indices (d : timedelta) :
  0 ≤ d < seconds TIME_HORIZON →
  let i := ceil (total_seconds d / TIME_STEP) in
  let j := ceil (total_seconds (seconds TIME_HORIZON - d) / TIME_STEP) in
  0 ≤ i ∧ 1 ≤ j
  ∧ i + j = (if decide (d mod 200000 = 0) then 75 else 76)
  ∧ (j = 1 ↔ 14800000 ≤ d).
Proof.
  unfold seconds, MICRO, TIME_HORIZON. intros Hd. cbv zeta.
  rewrite !ceil_time_steps. case_decide; Z.div_mod_to_equations; lia.
Qed.

Section ResolverMore.
Context `{solver : Solver}.
Implicit Types (st : Sessions) (sess : Session) (r : Reservation).
Implicit Types (l : list (string * option Reservation)) (dangers : gmap string Tube).

Lemma danger_of_stored time_ref r danger :
  danger_of time_ref r = inr (Some danger) →
  length danger = timeline_len ∧ (0 < overlap time_ref r)%Q.
Proof.
  unfold danger_of, overlap.
  destruct (Qltb 0 _) eqn:Hpos; simpl; [| done].
  apply Qltb_lt in Hpos. intros Hd. split; [| done].
  destruct (_ <? _);
    match type of Hd with keep ?x = _ => destruct x as [e|d] eqn:Ha end;
    simpl in Hd; try done; injection Hd as <-;
    apply assign_slice_length in Ha; by rewrite Ha, length_replicate.
Qed.

Lemma danger_of_raises time_ref r e :
  danger_of time_ref r = inl e → e = ValueError.
Proof.
  unfold danger_of. destruct (negb _); [done |].
  assert (Hk : ∀ lo hi (dst src : Tube), keep (assign_slice lo hi dst src) = inl e →
                                          e = ValueError).
  { intros lo hi dst src. unfold assign_slice.
    destruct (slice_bounds _ lo hi) as [a b]. case_decide; [done |].
    destruct src as [|x [|y src]]; simpl; congruence. }
  destruct (_ <? _); apply Hk.
Qed.

Lemma get_reservations_keys st k :
  k ∈ (get_reservations st).*1 → ∃ sess, st !! k = Some sess.
Proof.
  intros ([k' o] & -> & Hin)%list_elem_of_fmap.
  apply elem_of_get_reservations in Hin as (sess & Hst & _). by exists sess.
Qed.

Lemma omap_keys_NoDup {A B} (f : string * A → option (string * B))
    (l : list (string * A)) :
  (∀ p q, f p = Some q → q.1 = p.1) →
  NoDup l.*1 → NoDup (omap f l).*1.
Proof.
  intros Hf. induction l as [|p l IH]; simpl; [constructor |].
  intros [Hp Hl]%NoDup_cons. destruct (f p) as [q|] eqn:Hq; simpl; [| by apply IH].
  apply NoDup_cons. split; [| by apply IH].
  rewrite (Hf p q Hq). intros ([k b] & Hk & Hin)%list_elem_of_fmap.
  apply list_elem_of_omap in Hin as (p' & Hin' & Hq').
  apply Hp. apply list_elem_of_fmap. exists p'. split; [| done].
  simpl in Hk. rewrite Hk. by apply (Hf p' (k, b)).
Qed.

Lemma get_reservations_NoDup st : NoDup (get_reservations st).*1.
Proof.
  apply omap_keys_NoDup; [| apply NoDup_fst_map_to_list].
  intros [k sess] q. destruct (sess_reserved sess); [| done]. by intros [= <-].
Qed.

(** With distinct keys, none of them in the dictionary yet, the loop
    stores under each key the array of its reservation and nothing else. *)
Lemma resolve_loop_lookup time_ref l dangers dangers' sid tube :
  NoDup l.*1 →
  (∀ k, k ∈ l.*1 → dangers !! k = None) →
  resolve_loop time_ref l dangers = inr dangers' →
  (dangers' !! sid = Some tube
   ↔ dangers !! sid = Some tube
     ∨ (∃ r, (sid, Some r) ∈ l ∧ danger_of time_ref r = inr (Some tube))).
Proof.
  revert dangers. induction l as [|[k o] l IH]; intros dangers Hnd Hnew Hloop.
  - injection Hloop as <-. split; [by left |].
    intros [?|(r & Hin%elem_of_nil & _)]; done.
  - rewrite fmap_cons in Hnd, Hnew. cbn [fst] in Hnd, Hnew.
    apply NoDup_cons in Hnd as [Hk Hnd].
    assert (Hfresh : ∀ o', (k, o') ∉ l).
    { intros o' Hin. apply Hk. apply list_elem_of_fmap. by exists (k, o'). }
    assert (Hkd : dangers !! k = None) by (apply Hnew; left).
    cbn [resolve_loop] in Hloop. destruct o as [r|]; [| done].
    setoid_rewrite elem_of_cons.
    destruct (danger_of time_ref r) as [e|[danger|]] eqn:Hdanger; [done | |].
    + rewrite (IH (<[k:=danger]> dangers) Hnd); [| | done].
      2:{ intros k' Hin. rewrite lookup_insert_ne; [apply Hnew; by right |].
          by intros ->. }
      destruct (decide (sid = k)) as [->|Hne].
      * rewrite lookup_insert_eq, Hkd. split.
        -- intros [[= <-]|(r' & Hin & _)]; [| by destruct (Hfresh (Some r'))].
           right. exists r. split; [by left | done].
        -- intros [?|(r' & [[= <-]|Hin] & Hr')];
             [done | | by destruct (Hfresh (Some r'))].
           left. congruence.
      * rewrite lookup_insert_ne by done. split.
        -- intros [?|(r' & Hin & Hr')]; [by left |].
           right. exists r'. split; [by right | done].
        -- intros [?|(r' & [[= ? _]|Hin] & Hr')]; [by left | done |].
           right. by exists r'.
    + rewrite (IH dangers Hnd); [| | done].
      2:{ intros k' Hin. apply Hnew. by right. }
      split.
      * intros [?|(r' & Hin & Hr')]; [by left |].
        right. exists r'. split; [by right | done].
      * intros [?|(r' & [[= -> <-]|Hin] & Hr')]; [by left | congruence |].
        right. by exists r'.
Qed.

(** X10.  When [resolve_dangers] returns, the dictionary has an entry
    for a session id exactly when that session is reserved, its window
    overlaps the one asked for and the splice of its tube succeeded; the
    entry is the spliced array, and it has one row per point of the
    timeline. *)
Theorem resolve_dangers_entries time_ref st dangers sid tube :
  resolve_dangers time_ref st = inr dangers →
  (dangers !! sid = Some tube
   ↔ ∃ sess r, st !! sid = Some sess ∧ sess_reserved sess = true
               ∧ sess_reservation sess = Some r
               ∧ danger_of time_ref r = inr (Some tube))
  ∧ (dangers !! sid = Some tube →
     length tube = timeline_len
     ∧ ∃ sess r, st !! sid = Some sess ∧ sess_reservation sess = Some r
                 ∧ (0 < overlap time_ref r)%Q).
Proof.
  intros Hloop.
  assert (Hiff : dangers !! sid = Some tube
                 ↔ ∃ sess r, st !! sid = Some sess ∧ sess_reserved sess = true
                             ∧ sess_reservation sess = Some r
                             ∧ danger_of time_ref r = inr (Some tube)).
  { unfold resolve_dangers in Hloop.
    rewrite (resolve_loop_lookup _ _ _ _ sid tube (get_reservations_NoDup st)
               (λ k _, lookup_empty k) Hloop).
    rewrite lookup_empty. split.
    - intros [?|(r & Hin & Hr)]; [done |].
      apply elem_of_get_reservations in Hin as (sess & Hst & Hres & Heq).
      by exists sess, r.
    - intros (sess & r & Hst & Hres & Heq & Hr). right. exists r.
      split; [| done]. apply elem_of_get_reservations. exists sess. by rewrite Heq. }
  split; [exact Hiff |].
  intros (sess & r & Hst & _ & Hr & Hd)%Hiff.
  apply danger_of_stored in Hd as [Hlen Hov].
  split; [done |]. by exists sess, r.
Qed.

(** X11.  In a table the server can reach, [resolve_dangers] never
    fails for a missing key of a reservation: every session it visits
    holds one, and the only exception it can raise is the [ValueError] of
    the splice. *)
Theorem reachable_no_key_error st :
  reachable st →
  (∀ sid o, (sid, o) ∈ get_reservations st → is_Some o)
  ∧ (∀ time_ref e, resolve_dangers time_ref st = inl e → e = ValueError).
Proof.
  intros Hwf%reachable_table_wf.
  assert (Hsome : ∀ sid o, (sid, o) ∈ get_reservations st → is_Some o).
  { intros sid o (sess & Hst & Hres & ->)%elem_of_get_reservations.
    destruct (Hwf sid sess Hst) as (_ & Hiff & _). by apply Hiff. }
  split; [exact Hsome |].
  intros time_ref e. unfold resolve_dangers.
  generalize (∅ : gmap string Tube).
  induction (get_reservations st) as [|[k o] l IH]; intros dangers; [done |].
  destruct (Hsome k o (list_elem_of_here _ _)) as [r ->]. simpl.
  destruct (danger_of time_ref r) as [e'|[danger|]] eqn:Hd.
  - intros [= <-]. by apply danger_of_raises in Hd.
  - apply IH. intros sid o Hin. apply (Hsome sid o). by right.
  - apply IH. intros sid o Hin. apply (Hsome sid o). by right.
Qed.

End ResolverMore.

(** ** More on the splice *)

Lemma py_slice_inside {A} (a b : Z) (l : list A) :
  0 ≤ a ≤ b → b ≤ Z.of_nat (length l) →
  py_slice (Some a) (Some b) l = take (Z.to_nat (b - a)) (drop (Z.to_nat a) l).
Proof.
  intros Hab Hb. unfold py_slice, slice_bounds, norm_index.
  rewrite !(proj2 (Z.ltb_ge _ _)) by lia.
  by rewrite !Z.min_l, Z.max_r by lia.
Qed.

Section SpliceMore.
Context `{solver : Solver}.
Implicit Types (r : Reservation).

(** X12.  With a timeline of 76 points or more and a tube of that
    length, the splice for a window that starts with or after the
    reservation, within its horizon, never raises: the array is the tube
    from slice [i] on, [j] slices long, followed by all-ones slices. *)
Theorem danger_of_later_conformant time_ref r :
  (76 ≤ timeline_len)%nat →
  length (an_pass4 (res_analysis r)) = timeline_len →
  res_time_ref r ≤ time_ref < res_time_ref r + seconds TIME_HORIZON →
  let i := ceil (total_seconds (time_ref - res_time_ref r) / TIME_STEP) in
  let j := ceil (total_seconds (res_time_ref r + seconds TIME_HORIZON - time_ref)
                 / TIME_STEP) in
  danger_of time_ref r
  = inr (Some (take (Z.to_nat j) (drop (Z.to_nat i) (an_pass4 (res_analysis r)))
               ++ replicate (timeline_len - Z.to_nat j) ones)).
Proof.
  intros HN Hlen Hin. rewrite danger_of_later by done. cbv zeta.
  replace (res_time_ref r + seconds TIME_HORIZON - time_ref)
    with (seconds TIME_HORIZON - (time_ref - res_time_ref r)) by lia.
  destruct (ceil_indices (time_ref - res_time_ref r)) as (Hi & Hj & Hsum & _); [lia |].
  cbv zeta in Hsum.
  set (i := ceil (total_seconds (time_ref - res_time_ref r) / TIME_STEP)) in *.
  set (j := ceil (total_seconds (seconds TIME_HORIZON - (time_ref - res_time_ref r))
                  / TIME_STEP)) in *.
  assert (i + j ≤ 76) by (case_decide; lia).
  rewrite py_slice_inside by lia.
  replace (i + j - i) with j by lia.
  rewrite (assign_slice_conformant _ _ _ _ 0 j).
  - simpl. by rewrite drop_replicate.
  - unfold slice_bounds, norm_index. rewrite length_replicate.
    rewrite (proj2 (Z.ltb_ge _ _)) by lia. f_equal. lia.
  - rewrite length_take, length_drop. lia.
Qed.

(** X13.  With a timeline of 76 points and a tube of that length, the
    splice for a window that starts before the reservation raises
    [ValueError] exactly when the two starts are a whole number of
    [TIME_STEP]s apart, 14.8 s excepted (where the single source slice is
    broadcast). *)
Theorem danger_of_earlier_raises time_ref r :
  timeline_len = 76%nat →
  length (an_pass4 (res_analysis r)) = timeline_len →
  time_ref < res_time_ref r < time_ref + seconds TIME_HORIZON →
  danger_of time_ref r = inl ValueError
  ↔ (res_time_ref r - time_ref) mod 200000 = 0
    ∧ res_time_ref r - time_ref ≠ 14800000.
Proof.
  intros HN Hlen Hin. rewrite danger_of_earlier by done.
  replace (time_ref + seconds TIME_HORIZON - res_time_ref r)
    with (seconds TIME_HORIZON - (res_time_ref r - time_ref)) by lia.
  destruct (ceil_indices (res_time_ref r - time_ref)) as (Hi & Hj & Hsum & Hone); [lia |].
  cbv zeta in Hsum, Hone.
  set (d := res_time_ref r - time_ref) in *.
  set (i := ceil (total_seconds d / TIME_STEP)) in *.
  set (j := ceil (total_seconds (seconds TIME_HORIZON - d) / TIME_STEP)) in *.
  assert (Hd : 0 < d < 15000000) by (unfold seconds, MICRO, TIME_HORIZON in Hin; lia).
  assert (i + j ≤ 76) by (case_decide; lia).
  rewrite keep_raises.
  etrans.
  { apply (assign_slice_raises _ _ _ _ i 76).
    unfold slice_bounds, norm_index. rewrite length_replicate, HN.
    rewrite (proj2 (Z.ltb_ge _ _)) by lia. f_equal; lia. }
  rewrite (length_py_slice _ _ _ 0 j).
  2:{ unfold slice_bounds, norm_index. rewrite Hlen, HN.
      rewrite (proj2 (Z.ltb_ge _ _)) by lia. f_equal; lia. }
  case_decide as Hgrid.
  - split.
    + intros [_ H1]. split; [done |]. intros Heq. apply H1.
      assert (j = 1) by (apply Hone; lia). lia.
    + intros [_ Hne]. split; [lia |].
      assert (j ≠ 1); [| lia].
      intros Hj1%Hone. revert Hgrid. Z.div_mod_to_equations. lia.
  - split; [| tauto]. intros [Hmis _]. lia.
Qed.

End SpliceMore.
